(** * faiss-embedder: a shallow embedding of the build/query pipeline

    The development follows the JavaScript sources:
    - [lib/textSplitter.js]  ([chunkTextSync])
    - [lib/embedder.js]      ([OllamaEmbedder.healthCheck])
    - [lib/docCache.js]      ([getFiles], [generateDocCache], [detectChanges])
    - [lib/faissIndexer.js]  ([FaissIndexer.build], [FaissIndexer.search])
    - [index.js] and [cli.js] (the two entry points that assemble the
      pre-build metadata: [build] and [runBuild]).

    JavaScript strings are modelled as [string] (one [ascii] per code unit),
    numbers that index or count as [Z] or [nat], plain objects as
    [gmap string JValue], arrays as lists, thrown errors as the [Err] branch of
    a result type. The embedding service, the FAISS engine, the LangChain
    splitters and MD5 are external to the repository and enter as section
    variables. *)

From Stdlib Require Import ZArith String Ascii Lia Sorting.Sorted.
From stdpp Require Import gmap strings list fin_maps pretty.

Set Warnings "-register-all,-clear-no-such-hyp".

Open Scope string_scope.
Open Scope Z_scope.

(* ===================================================================== *)
(** * JavaScript values and string primitives                             *)
(* ===================================================================== *)

Module JS.

(** The values a parsed JSON document (or an absent property) can hold.
    Composite values that the pipeline only carries around are kept opaque. *)
Inductive JValue : Type :=
  | JUndef
  | JNull
  | JBool (b : bool)
  | JNum (n : Z)
  | JStr (s : string)
  | JOther (tag : nat).

#[global] Instance JValue_eq_dec : EqDecision JValue.
Proof. solve_decision. Defined.

(** [o[k]] on a plain object: a missing property reads as [undefined]. *)
Definition get (o : gmap string JValue) (k : string) : JValue :=
  default JUndef (o !! k).

(** JavaScript truthiness. *)
Definition truthy (v : JValue) : bool :=
  match v with
  | JUndef | JNull => false
  | JBool b => b
  | JNum n => negb (n =? 0)
  | JStr s => negb (String.eqb s "")
  | JOther _ => true
  end.

(** [String.prototype.slice(start, end)]: negative positions count from the
    end of the string, every position is clamped to [0, length]. *)
Definition slice (s : string) (start end_ : Z) : string :=
  let len := Z.of_nat (String.length s) in
  let from := if start <? 0 then Z.max (len + start) 0 else Z.min start len in
  let to := if end_ <? 0 then Z.max (len + end_) 0 else Z.min end_ len in
  substring (Z.to_nat from) (Z.to_nat (Z.max (to - from) 0)) s.

(** White space and line terminators stripped by [String.prototype.trim],
    among the code units below 256: TAB, LF, VT, FF, CR, SP and NBSP. *)
Definition is_ws (c : ascii) : bool :=
  let n := nat_of_ascii c in
  ((9 <=? n) && (n <=? 13) || (n =? 32) || (n =? 160))%nat.

Fixpoint trim_start (s : string) : string :=
  match s with
  | EmptyString => EmptyString
  | String c s' => if is_ws c then trim_start s' else s
  end.

Fixpoint all_ws (s : string) : bool :=
  match s with
  | EmptyString => true
  | String c s' => is_ws c && all_ws s'
  end.

(** [trim_end] keeps a character when it is not white space or when something
    that is not white space follows it. *)
Fixpoint trim_end (s : string) : string :=
  match s with
  | EmptyString => EmptyString
  | String c s' => if all_ws s then EmptyString else String c (trim_end s')
  end.

Definition trim (s : string) : string := trim_end (trim_start s).

(** [a.startsWith(p)] and [a.includes(p)]. *)
Definition startsWith (a p : string) : bool := String.prefix p a.

Fixpoint includes (a p : string) : bool :=
  String.prefix p a ||
  match a with
  | EmptyString => false
  | String _ a' => includes a' p
  end.

(** [Array.prototype.includes] on an array of strings. *)
Definition arr_includes (l : list string) (x : string) : bool :=
  bool_decide (x ∈ l).

End JS.

(* ===================================================================== *)
(** * Errors                                                              *)
(* ===================================================================== *)

(** What the pipeline throws (or, in the CLI, reports before exiting). The
    payload is the message text where a claim depends on it. *)
Inductive Error : Type :=
  | HealthError (message : string)        (* build: health.ok is false *)
  | MetadataNotFound                      (* build: metadata file missing *)
  | MetadataEmpty                         (* build: not a non-empty array *)
  | EmbedError                            (* embedder.embed rejected *)
  | DimensionError                        (* index.add: wrong vector length *)
  | TypeError                             (* a JS TypeError, e.g. (5).trim *)
  | IndexEmpty                            (* search: empty or not loaded *)
  | IndexNotFound                         (* load: index file missing *)
  | DirectoryNotFound                     (* docCache, cli: missing directory *)
  | SplitterError                         (* a LangChain splitter threw *)
  | DuplicateChunkId (chunk_id : string)  (* cli: duplicate chunk_id, exit 1 *)
  | NoDocuments.                          (* cli: nothing to index, exit 1 *)

Inductive Result (A : Type) : Type :=
  | Ok (a : A)
  | Err (e : Error).
Arguments Ok {A} a.
Arguments Err {A} e.

Definition rbind {A B} (r : Result A) (k : A → Result B) : Result B :=
  match r with
  | Ok a => k a
  | Err e => Err e
  end.

Notation "'let*' x ':=' r 'in' k" := (rbind r (fun x => k))
  (at level 10, x pattern, r at level 100, k at level 200).

(* ===================================================================== *)
(** * lib/textSplitter.js: the synchronous fixed-width chunker            *)
(* ===================================================================== *)

Module TextSplitter.

(** The [while] loop of [chunkTextSync]. One unit of [fuel] pays for one test
    of the loop condition; [None] means the fuel ran out with the loop still
    running. [start] and [chunks] are the loop's two mutable variables. *)
Fixpoint chunk_loop (fuel : nat) (text : string) (chunkSize overlap : Z)
    (start : Z) (chunks : list string) : option (list string) :=
  match fuel with
  | O => None
  | S fuel' =>
    let len := Z.of_nat (String.length text) in
    if start <? len then
      let end_ := Z.min (start + chunkSize) len in
      let chunks' := (chunks ++ [JS.slice text start end_])%list in
      let start' := end_ - overlap in
      if start' + overlap >=? len then Some chunks'
      else chunk_loop fuel' text chunkSize overlap start' chunks'
    else Some chunks
  end.

Definition chunkTextSync_fuel (fuel : nat) (text : string)
    (chunkSize overlap : Z) : option (list string) :=
  chunk_loop fuel text chunkSize overlap 0 [].


(** The window cut at the [j]-th pass of the loop, for reference: it starts
    [j] strides of [chunkSize - overlap] into the text. *)
Definition window (text : string) (chunkSize overlap : Z) (j : nat) : string :=
  let start := Z.of_nat j * (chunkSize - overlap) in
  JS.slice text start (Z.min (start + chunkSize) (Z.of_nat (String.length text))).

(** The loop never ends: no amount of fuel is enough. *)
Definition chunkTextSync_diverges (text : string) (chunkSize overlap : Z) : Prop :=
  ∀ fuel, chunkTextSync_fuel fuel text chunkSize overlap = None.

End TextSplitter.


(* ===================================================================== *)
(** * Paths and directory trees                                           *)
(* ===================================================================== *)

Module Path.

(** [String.prototype.toLowerCase] on code units below 256: A-Z and the
    Latin-1 capitals (all of 0xC0-0xDE but the multiplication sign). *)
Definition lower_ascii (c : ascii) : ascii :=
  let n := nat_of_ascii c in
  if ((65 <=? n) && (n <=? 90) || (192 <=? n) && (n <=? 222) && negb (n =? 215))%nat
  then ascii_of_nat (n + 32) else c.

Fixpoint toLowerCase (s : string) : string :=
  match s with
  | EmptyString => EmptyString
  | String c s' => String (lower_ascii c) (toLowerCase s')
  end.

(** Splits a string at its last dot: the part before it, and the part from the
    dot on. [None] when there is no dot. *)
Fixpoint split_last_dot (s : string) : option (string * string) :=
  match s with
  | EmptyString => None
  | String c s' =>
    match split_last_dot s' with
    | Some (pre, suf) => Some (String c pre, suf)
    | None => if Ascii.eqb c "." then Some (EmptyString, s) else None
    end
  end.

(** [path.extname] on a single path segment: the text from the last dot on,
    but empty when there is no dot, when the only dot leads the name, and
    for the segment [..]. *)
Definition extname (name : string) : string :=
  match split_last_dot name with
  | None => ""
  | Some (pre, suf) =>
    if String.eqb pre "" then ""
    else if String.eqb name ".." then ""
    else suf
  end.

(** A file is addressed by the names leading to it from the scanned root.
    [path.relative(root, file)] joins them with the POSIX separator and
    [path.basename(file)] is the last of them. *)
Definition relative (p : list string) : string := String.concat "/" p.
Definition basename (p : list string) : string := List.last p "".

End Path.

Module FS.

(** What [readdirSync(dir, {withFileTypes: true})] lists: regular files (with
    their text), directories (with their own listing) and anything else
    (sockets, symbolic links, ...). *)
Inductive Entry : Type :=
  | EFile (name content : string)
  | EDir (name : string) (children : list Entry)
  | EOther (name : string).

Definition entry_name (e : Entry) : string :=
  match e with
  | EFile n _ | EDir n _ | EOther n => n
  end.

(** A file found by an enumeration: where it is and what it holds. *)
Record FileRef : Type := { fr_path : list string; fr_content : string }.

(** [file_at entries p content]: under a directory listing [entries], the
    path [p] leads to a regular file holding [content]. *)
Inductive file_at : list Entry → list string → string → Prop :=
  | file_here entries name content :
      EFile name content ∈ entries → file_at entries [name] content
  | file_below entries name children p content :
      EDir name children ∈ entries → file_at children p content →
      file_at entries (name :: p) content.

(** A name that [docCache.js] treats as hidden. *)
Definition hidden (name : string) : bool := JS.startsWith name ".".

End FS.

(* ===================================================================== *)
(** * lib/docCache.js                                                     *)
(* ===================================================================== *)

Module DocCache.
Import FS.

Record Options : Type :=
  { extensions : option (list string); recursive : bool }.

(** [scan], the inner function of [getFiles], on one directory entry. *)
Fixpoint scan_entry (opts : Options) (currentPath : list string) (entry : Entry)
    {struct entry} : list FileRef :=
  if JS.startsWith (entry_name entry) "." then []
  else
    match entry with
    | EDir name children =>
      if recursive opts
      then flat_map (scan_entry opts (currentPath ++ [name])%list) children
      else []
    | EFile name content =>
      let keep :=
        match extensions opts with
        | None | Some [] => true
        | Some exts => JS.arr_includes exts (Path.toLowerCase (Path.extname name))
        end in
      if keep then [ {| fr_path := (currentPath ++ [name])%list; fr_content := content |} ]
      else []
    | EOther _ => []
    end.

Definition scan (opts : Options) (currentPath : list string)
    (entries : list Entry) : list FileRef :=
  flat_map (scan_entry opts currentPath) entries.

Definition getFiles (dir : list Entry) (opts : Options) : list FileRef :=
  scan opts [] dir.

(** The four arrays returned by [detectChanges]. *)
Record Changes : Type :=
  { added : list string; modified : list string;
    removed : list string; unchanged : list string }.

Section WithHash.
(** [getFileHash]: the MD5 digest of a file's bytes, as hex text. *)
Variable md5 : string → string.

(** [generateDocCache]: [cache[basename] = hash], file after file. [None]
    stands for a directory that does not exist. *)
Definition generateDocCache (dir : option (list Entry)) (opts : Options)
    : Result (gmap string string) :=
  match dir with
  | None => Err DirectoryNotFound
  | Some entries =>
    Ok (foldl (λ cache f, <[Path.basename (fr_path f) := md5 (fr_content f)]> cache)
              ∅ (getFiles entries opts))
  end.

(** The state of the first loop of [detectChanges]. *)
Record DetectState : Type :=
  { ds_result : Changes; ds_current : gset string }.

(** [!existingCache[key]]: true for a missing key and for an empty digest. *)
Definition cache_falsy (existingCache : gmap string string) (key : string) : bool :=
  match existingCache !! key with
  | None => true
  | Some h => String.eqb h ""
  end.

Definition detect_step (existingCache : gmap string string)
    (st : DetectState) (f : FileRef) : DetectState :=
  let key := Path.basename (fr_path f) in
  let current := {[ key ]} ∪ ds_current st in
  let hash := md5 (fr_content f) in
  let r := ds_result st in
  let r' :=
    if cache_falsy existingCache key then
      {| added := (added r ++ [key])%list; modified := modified r;
         removed := removed r; unchanged := unchanged r |}
    else if negb (bool_decide (existingCache !! key = Some hash)) then
      {| added := added r; modified := (modified r ++ [key])%list;
         removed := removed r; unchanged := unchanged r |}
    else
      {| added := added r; modified := modified r;
         removed := removed r; unchanged := (unchanged r ++ [key])%list |} in
  {| ds_result := r'; ds_current := current |}.

(** The branch of the [if] chain in [detect_step] that a file takes. *)
Definition is_added (existingCache : gmap string string) (f : FileRef) : bool :=
  cache_falsy existingCache (Path.basename (fr_path f)).
Definition is_modified (existingCache : gmap string string) (f : FileRef) : bool :=
  negb (is_added existingCache f) &&
  negb (bool_decide (existingCache !! Path.basename (fr_path f)
                     = Some (md5 (fr_content f)))).
Definition is_unchanged (existingCache : gmap string string) (f : FileRef) : bool :=
  negb (is_added existingCache f) &&
  bool_decide (existingCache !! Path.basename (fr_path f)
               = Some (md5 (fr_content f))).

Definition detectChanges (dir : list Entry)
    (existingCache : gmap string string) (opts : Options) : Changes :=
  let files := getFiles dir opts in
  let st := foldl (detect_step existingCache)
              {| ds_result := {| added := []; modified := [];
                                 removed := []; unchanged := [] |};
                 ds_current := ∅ |} files in
  let r := ds_result st in
  {| added := added r; modified := modified r;
     removed := filter (λ key, key ∉ ds_current st)
                       (map fst (map_to_list existingCache));
     unchanged := unchanged r |}.
End WithHash.

End DocCache.

(* ===================================================================== *)
(** * lib/embedder.js: the health check                                   *)
(* ===================================================================== *)

Module Embedder.

(** The outcome of [axios.get(baseUrl + "/api/tags")]: the request fails with
    an error message, or resolves with [response.data.models], which may be
    absent. A listed model is [Some name], or [None] when the entry carries
    no [name] to call [includes] on. *)
Inductive TagsReply : Type :=
  | NetFail (message : string)
  | Reply (models : option (list (option string))).

Record Health : Type := { ok : bool; message : string }.

(** [models.some((m) => m.name.includes(model))]. The scan stops at the first
    match; reading [includes] off a missing name throws. *)
Fixpoint some_includes (models : list (option string)) (model : string)
    : option bool :=
  match models with
  | [] => Some false
  | None :: _ => None
  | Some name :: rest =>
    if JS.includes name model then Some true else some_includes rest model
  end.

(** The message V8 gives the [TypeError] above. *)
Definition type_error_message : string :=
  "Cannot read properties of undefined (reading 'includes')".

Definition healthCheck (model : string) (reply : TagsReply) : Health :=
  match reply with
  | NetFail msg => {| ok := false; message := "Ollama not running: " ++ msg |}
  | Reply data_models =>
    let models := default [] data_models in
    match some_includes models model with
    | None =>
      {| ok := false; message := "Ollama not running: " ++ type_error_message |}
    | Some false =>
      {| ok := false;
         message := "Model '" ++ model ++ "' not found. Run: ollama pull " ++ model |}
    | Some true => {| ok := true; message := "Ollama ready with " ++ model |}
    end
  end.

(** "Reachable, and the configured model name is present in the listing",
    read as: the request resolved and one of the listed names is the
    configured name. *)
Definition reachable_and_listed (model : string) (reply : TagsReply) : Prop :=
  ∃ models, reply = Reply (Some models) ∧ Some model ∈ models.

(** What [healthCheck] tests instead: the request resolved and the scan of the
    listing reaches, through entries that all carry a name, a name that
    contains the configured name. *)
Definition reachable_and_matched (model : string) (reply : TagsReply) : Prop :=
  ∃ before name after,
    reply = Reply (Some (map Some before ++ Some name :: after)%list) ∧
    JS.includes name model = true.

End Embedder.

(* ===================================================================== *)
(** * lib/faissIndexer.js                                                 *)
(* ===================================================================== *)

Module FaissIndexer.
Import JS.

(** [modelDimensions[this.model] || 768]. *)
Definition dimension_of (model : string) : nat :=
  if String.eqb model "nomic-embed-text" then 768
  else if String.eqb model "mxbai-embed-large" then 1024
  else if String.eqb model "all-minilm" then 384
  else if String.eqb model "snowflake-arctic-embed" then 1024
  else if String.eqb model "bge-m3" then 1024
  else 768.

(** [item.chunk || ""] followed by [chunk.trim()]: a falsy value reads as the
    empty text, a truthy value that is not a string has no [trim]. *)
Definition chunk_text (item : gmap string JValue) : Result string :=
  match get item "chunk" with
  | JStr s => Ok s
  | v => if truthy v then Err TypeError else Ok ""
  end.

(** [!chunk.trim()]. *)
Definition blank (chunk : string) : bool := String.eqb (trim chunk) "".

(** The properties of the input item spread into the stored entry. *)
Definition extra_fields (item : gmap string JValue) : gmap string JValue :=
  filter (λ kv, negb (arr_includes ["doc"; "chunk_id"; "chunk"] kv.1)) item.

(** The object literal pushed on [this.metadata]: the four named properties,
    then the spread, whose properties overwrite those written before it. *)
Definition make_entry (id : nat) (item : gmap string JValue) (chunk : string)
    : gmap string JValue :=
  extra_fields item ∪
  <["chunk" := JStr chunk]>
    (<["chunk_id" := get item "chunk_id"]>
       (<["doc" := get item "doc"]> {["id" := JNum (Z.of_nat id)]})).

(** [JSON.stringify] writes no property whose value is [undefined]. *)
Definition stringify_entry (e : gmap string JValue) : gmap string JValue :=
  filter (λ kv, kv.2 ≠ JUndef) e.

(** The text [build] sees in an item, and whether the item is skipped as
    blank or goes on to be embedded. *)
Definition item_text (item : gmap string JValue) : string :=
  match chunk_text item with Ok c => c | Err _ => "" end.
Definition item_blank (item : gmap string JValue) : bool :=
  match chunk_text item with Ok c => blank c | Err _ => false end.
Definition nonblank (item : gmap string JValue) : bool :=
  match chunk_text item with Ok c => negb (blank c) | Err _ => false end.

(** The items that are not skipped, each with its position in the input,
    counted from [i]. *)
Fixpoint kept_from (i : nat) (items : list (gmap string JValue))
    : list (nat * gmap string JValue) :=
  match items with
  | [] => []
  | item :: rest =>
    if nonblank item then (i, item) :: kept_from (S i) rest
    else kept_from (S i) rest
  end.

Section WithOracle.
(** Vector components and scores are floating-point numbers, kept abstract. *)
Variable F : Type.
(** [embedder.embed]: the vector the embedding service answers with, [None]
    when the request is rejected. *)
Variable embed : string → option (list F).
(** [embedder.normalize], a floating-point computation. *)
Variable normalize : list F → list F.

(** The vector stored for an item: the normalized answer of the embedding
    service for the item's text, of the index's dimension. *)
Definition embedded_as (dim : nat) (item : gmap string JValue) (v : list F) : Prop :=
  ∃ raw, embed (item_text item) = Some raw ∧ v = normalize raw ∧ length v = dim.

(** One call of the progress callback: [(current, total, item)]. *)
Definition ProgressCall : Type := (nat * nat * gmap string JValue)%type.

(** The indexer object. The FAISS engine is not part of the repository; the
    index it owns is kept as the list of the stored vectors, [ntotal] being
    the length of the list. *)
Record Indexer : Type :=
  { dimension : nat;
    index : option (list (list F));
    metadata : list (gmap string JValue) }.

Definition new_indexer (model : string) : Indexer :=
  {| dimension := dimension_of model; index := None; metadata := [] |}.

(** Modelled from the spec: the engine's [add], absent from the sources, is
    the interface [append(vector) -> ordinalId] of the design notes: it stores
    one vector at the next ordinal, and every stored vector has exactly the
    dimension fixed when the index was made. *)
Definition index_add (dim : nat) (idx : list (list F)) (v : list F)
    : Result (list (list F)) :=
  if bool_decide (length v = dim) then Ok (idx ++ [v])%list
  else Err DimensionError.

(** The variables the [for] loop of [build] updates, and the calls it makes
    to [onProgress]. *)
Record LoopState : Type :=
  { ls_index : list (list F);
    ls_metadata : list (gmap string JValue);
    ls_progress : list ProgressCall }.

(** The [for] loop of [build], from position [i] on; [total] is
    [metadata.length]. *)
Fixpoint build_loop (dim : nat) (total : nat) (i : nat)
    (items : list (gmap string JValue)) (st : LoopState) : Result LoopState :=
  match items with
  | [] => Ok st
  | item :: rest =>
    let* chunk := chunk_text item in
    if blank chunk then build_loop dim total (S i) rest st
    else
      match embed chunk with
      | None => Err EmbedError
      | Some raw =>
        let embedding := normalize raw in
        let* idx := index_add dim (ls_index st) embedding in
        let entry := make_entry (length (ls_metadata st)) item chunk in
        build_loop dim total (S i) rest
          {| ls_index := idx;
             ls_metadata := (ls_metadata st ++ [entry])%list;
             ls_progress := (ls_progress st ++ [(S i, total, item)])%list |}
      end
  end.

(** What a successful [build] leaves behind: the indexer, the returned
    vector count, the progress calls, and the two files written by [_save]. *)
Record BuildOutcome : Type :=
  { b_indexer : Indexer;
    b_vectors : nat;
    b_progress : list ProgressCall;
    b_index_file : list (list F);
    b_metadata_file : list (gmap string JValue) }.

(** [build]. [health] is the answer of [embedder.healthCheck()];
    [metadata_file] is the parsed array at [metadataPath], [None] when the
    file does not exist. *)
Definition build (self : Indexer) (health : Embedder.Health)
    (metadata_file : option (list (gmap string JValue))) : Result BuildOutcome :=
  if negb (Embedder.ok health) then Err (HealthError (Embedder.message health))
  else
    match metadata_file with
    | None => Err MetadataNotFound
    | Some [] => Err MetadataEmpty
    | Some items =>
      let* st := build_loop (dimension self) (length items) 0 items
                   {| ls_index := []; ls_metadata := []; ls_progress := [] |} in
      Ok {| b_indexer := {| dimension := dimension self;
                            index := Some (ls_index st);
                            metadata := ls_metadata st |};
            b_vectors := length (ls_index st);
            b_progress := ls_progress st;
            b_index_file := ls_index st;
            b_metadata_file := map stringify_entry (ls_metadata st) |}
    end.

(** [load]: the index file must exist, the metadata file is optional. *)
Definition load (self : Indexer) (index_file : option (list (list F)))
    (metadata_file : option (list (gmap string JValue))) : Result Indexer :=
  match index_file with
  | None => Err IndexNotFound
  | Some vectors =>
    Ok {| dimension := dimension self;
          index := Some vectors;
          metadata := default (metadata self) metadata_file |}
  end.

(** What [index.search] of the FAISS engine returns: two arrays. *)
Record EngineResult : Type := { labels : list Z; distances : list F }.

(** The engine's nearest-neighbour search over the stored vectors. *)
Variable engine_search : list (list F) → list F → Z → EngineResult.

(** One element of the array returned by [search]. *)
Record Hit : Type :=
  { h_id : Z; h_score : option F;
    h_doc : JValue; h_chunk_id : JValue; h_chunk : JValue }.

(** [this.metadata[idx] || { id: idx }]. *)
Definition meta_at (metadata : list (gmap string JValue)) (idx : Z)
    : gmap string JValue :=
  match (if idx <? 0 then None else metadata !! Z.to_nat idx) with
  | Some meta => meta
  | None => {["id" := JNum idx]}
  end.

(** The [for] loop of [search] over [result.labels], from position [i]. *)
Fixpoint collect_hits (metadata : list (gmap string JValue))
    (result : EngineResult) (i : nat) (todo : list Z) : list Hit :=
  match todo with
  | [] => []
  | idx :: rest =>
    if idx =? -1 then collect_hits metadata result (S i) rest
    else
      let meta := meta_at metadata idx in
      {| h_id := idx; h_score := distances result !! i;
         h_doc := get meta "doc"; h_chunk_id := get meta "chunk_id";
         h_chunk := get meta "chunk" |}
      :: collect_hits metadata result (S i) rest
  end.

Definition search (self : Indexer) (query : string) (k : Z) : Result (list Hit) :=
  match index self with
  | None | Some [] => Err IndexEmpty
  | Some vectors =>
    match embed query with
    | None => Err EmbedError
    | Some raw =>
      let queryVec := normalize raw in
      let result :=
        engine_search vectors queryVec (Z.min k (Z.of_nat (length vectors))) in
      Ok (collect_hits (metadata self) result 0 (labels result))
    end
  end.

(** [best x y]: the score [x] is at least as good as [y] under the metric
    of the index (larger for inner product, smaller for L2). *)
Variable best : F → F → Prop.



End WithOracle.

End FaissIndexer.

(* ===================================================================== *)
(** * lib/textSplitter.js: the LangChain-backed splitters                 *)
(* ===================================================================== *)

Module Splitter.

Definition nl : string := String (ascii_of_nat 10) EmptyString.

(** [CODE_LANGUAGES]. *)
Definition CODE_LANGUAGES (language : string) : option string :=
  list_to_map (M := gmap string string)
    [("js", "js"); ("javascript", "js"); ("ts", "ts"); ("typescript", "ts");
     ("py", "python"); ("python", "python"); ("java", "java"); ("go", "go");
     ("rust", "rust"); ("cpp", "cpp"); ("c", "cpp")] !! language.

Record Options : Type :=
  { type : string; chunkSize : Z; chunkOverlap : Z; language : option string }.

(** The constructor call [createSplitter] ends in, with its arguments. *)
Inductive SplitterCall : Type :=
  | CharacterTextSplitter (chunkSize chunkOverlap : Z) (separator : string)
  | MarkdownTextSplitter (chunkSize chunkOverlap : Z)
  | FromLanguage (lang : string) (chunkSize chunkOverlap : Z)
  | RecursiveCharacterTextSplitter (chunkSize chunkOverlap : Z)
      (separators : option (list string)).

Definition createSplitter (o : Options) : SplitterCall :=
  if String.eqb (type o) "character" then
    CharacterTextSplitter (chunkSize o) (chunkOverlap o) (nl ++ nl)
  else if String.eqb (type o) "markdown" then
    MarkdownTextSplitter (chunkSize o) (chunkOverlap o)
  else if String.eqb (type o) "code" then
    match language o ≫= CODE_LANGUAGES with
    | Some lang => FromLanguage lang (chunkSize o) (chunkOverlap o)
    | None => RecursiveCharacterTextSplitter (chunkSize o) (chunkOverlap o) None
    end
  else
    RecursiveCharacterTextSplitter (chunkSize o) (chunkOverlap o)
      (Some [nl ++ nl; nl; ". "; " "; ""]).

Section WithLangChain.
(** Constructing the LangChain splitter and running its [splitText]; the
    library may throw. *)
Variable langchain : SplitterCall → string → Result (list string).

Definition splitText (text : string) (o : Options) : Result (list string) :=
  langchain (createSplitter o) text.

(** [splitTextByFileType]: the type chosen from the extension replaces the
    one in [options]. [name] is the last segment of [filePath]. *)
Definition splitTextByFileType (text : string) (name : string) (o : Options)
    : Result (list string) :=
  let dotted := Path.toLowerCase (Path.extname name) in
  let ext := JS.slice dotted 1 (Z.of_nat (String.length dotted)) in
  let '(type', language') :=
    if String.eqb ext "md" || String.eqb ext "markdown" then ("markdown", None)
    else if bool_decide (is_Some (CODE_LANGUAGES ext)) then ("code", Some ext)
    else ("recursive", None) in
  splitText text {| type := type'; chunkSize := chunkSize o;
                    chunkOverlap := chunkOverlap o; language := language' |}.
End WithLangChain.

End Splitter.

(* ===================================================================== *)
(** * index.js and cli.js: assembling the metadata and building           *)
(* ===================================================================== *)

Module IndexBuilder.
Import FS JS.

(** [getFiles], the helper that [index.js] and [cli.js] each define with the
    same body. *)
Fixpoint getFiles_entry (extensions : list string) (recursive : bool)
    (dir : list string) (item : Entry) {struct item} : list FileRef :=
  match item with
  | EDir name children =>
    if recursive
    then flat_map (getFiles_entry extensions recursive (dir ++ [name])%list) children
    else []
  | EFile name content =>
    if arr_includes extensions (Path.toLowerCase (Path.extname name))
    then [ {| fr_path := (dir ++ [name])%list; fr_content := content |} ]
    else []
  | EOther _ => []
  end.

Definition getFiles (items : list Entry) (extensions : list string)
    (recursive : bool) : list FileRef :=
  flat_map (getFiles_entry extensions recursive []) items.

(** [.replace(/[\/\\]/g, "_")]. *)
Fixpoint replace_separators (s : string) : string :=
  match s with
  | EmptyString => EmptyString
  | String c s' =>
    String (if Ascii.eqb c "/" || Ascii.eqb c "\" then "_"%char else c)
           (replace_separators s')
  end.

Fixpoint has_slash (s : string) : bool :=
  match s with
  | EmptyString => false
  | String c s' => Ascii.eqb c "/" || has_slash s'
  end.

(** [.replace(/\.[^/.]+$/, "")]: the match, if any, starts at the last dot,
    which must be followed by at least one character and by no slash. *)
Definition strip_extension (s : string) : string :=
  match Path.split_last_dot s with
  | Some (pre, String _ (String _ _ as tail)) =>
    if has_slash tail then s else pre
  | _ => s
  end.

Definition baseId (relativePath : string) : string :=
  strip_extension (replace_separators relativePath).

Definition chunkId (relativePath : string) (i : nat) : string :=
  baseId relativePath ++ "_" ++ pretty i.

(** The object [{ doc, chunk, chunk_id }] pushed for chunk [i] of a file. *)
Definition make_item (relativePath : string) (i : nat) (chunk : string)
    : gmap string JValue :=
  <["chunk_id" := JStr (chunkId relativePath i)]>
    (<["chunk" := JStr chunk]> {["doc" := JStr relativePath]}).

Definition item_chunk_id (item : gmap string JValue) : JValue := get item "chunk_id".

(** The state kept by the loops of [runBuild]: the identifiers collected in
    [chunkIds] are those of the items pushed so far, without repetition. *)
Definition ids_tracked (metadata : list (gmap string JValue))
    (chunkIds : gset string) : Prop :=
  NoDup (map item_chunk_id metadata) ∧
  ∀ id, id ∈ chunkIds ↔ JStr id ∈ map item_chunk_id metadata.

Record Options : Type :=
  { chunkSize : Z; chunkOverlap : Z; extensions : list string;
    recursive : bool; model : string; splitter : string }.

(** The defaults of [build] in [index.js] and of the [build] command of
    [cli.js]. *)
Definition default_options : Options :=
  {| chunkSize := 1500; chunkOverlap := 200; extensions := [".txt"; ".md"];
     recursive := false; model := "nomic-embed-text"; splitter := "recursive" |}.
Definition cli_default_options : Options :=
  {| chunkSize := 1500; chunkOverlap := 200;
     extensions := [".txt"; ".md"; ".js"; ".json"];
     recursive := false; model := "nomic-embed-text"; splitter := "recursive" |}.

Definition splitter_options (o : Options) : Splitter.Options :=
  {| Splitter.type := splitter o; Splitter.chunkSize := chunkSize o;
     Splitter.chunkOverlap := chunkOverlap o; Splitter.language := None |}.

(** [readFileContent] of [cli.js]: the text of a file with a supported
    extension, [None] (JavaScript [null]) otherwise. *)
Definition supportedExtensions : list string :=
  [".txt"; ".md"; ".json"; ".js"; ".ts"; ".py"; ".yaml"; ".yml"; ".jsx"; ".tsx";
   ".css"; ".html"; ".xml"; ".sql"; ".sh"; ".go"; ".rs"; ".java"; ".c"; ".cpp";
   ".h"; ".hpp"].

Definition readFileContent (f : FileRef) : option string :=
  if arr_includes supportedExtensions
       (Path.toLowerCase (Path.extname (Path.basename (fr_path f))))
  then Some (fr_content f) else None.

Section WithServices.
Variable F : Type.
Variable embed : string → option (list F).
Variable normalize : list F → list F.
Variable langchain : Splitter.SplitterCall → string → Result (list string).
Variable md5 : string → string.

(** The outer loop of [build] in [index.js]: every chunk of every file is
    pushed on [metadata]. *)
Fixpoint lib_metadata (o : Options) (files : list FileRef)
    (metadata : list (gmap string JValue)) : Result (list (gmap string JValue)) :=
  match files with
  | [] => Ok metadata
  | f :: rest =>
    let relativePath := Path.relative (fr_path f) in
    let* chunks := Splitter.splitTextByFileType langchain (fr_content f)
                     (Path.basename (fr_path f)) (splitter_options o) in
    lib_metadata o rest (metadata ++ imap (make_item relativePath) chunks)%list
  end.

(** [build] of [index.js]. *)
Definition build (inputDir : list Entry) (o : Options)
    (reply : Embedder.TagsReply) : Result (FaissIndexer.BuildOutcome F) :=
  let files := getFiles inputDir (extensions o) (recursive o) in
  let* metadata := lib_metadata o files [] in
  FaissIndexer.build F embed normalize
    (FaissIndexer.new_indexer F (model o))
    (Embedder.healthCheck (model o) reply) (Some metadata).

(** The inner loop of [runBuild] over the chunks of one file, with the set
    [chunkIds] of identifiers seen so far. *)
Fixpoint cli_push_chunks (relativePath : string) (i : nat) (chunks : list string)
    (metadata : list (gmap string JValue)) (chunkIds : gset string)
    : Result (list (gmap string JValue) * gset string) :=
  match chunks with
  | [] => Ok (metadata, chunkIds)
  | chunk :: rest =>
    let id := chunkId relativePath i in
    if bool_decide (id ∈ chunkIds) then Err (DuplicateChunkId id)
    else cli_push_chunks relativePath (S i) rest
           (metadata ++ [make_item relativePath i chunk])%list
           ({[ id ]} ∪ chunkIds)
  end.

(** The outer loop of [runBuild]. *)
Fixpoint cli_metadata (o : Options) (files : list FileRef)
    (metadata : list (gmap string JValue)) (chunkIds : gset string)
    : Result (list (gmap string JValue)) :=
  match files with
  | [] => Ok metadata
  | f :: rest =>
    let relativePath := Path.relative (fr_path f) in
    match readFileContent f with
    | None | Some "" => cli_metadata o rest metadata chunkIds
    | Some content =>
      let* chunks := Splitter.splitTextByFileType langchain content
                       (Path.basename (fr_path f)) (splitter_options o) in
      let* pushed := cli_push_chunks relativePath 0 chunks metadata chunkIds in
      cli_metadata o rest pushed.1 pushed.2
    end
  end.

(** What a completed [runBuild] has written. *)
Record CliOutcome : Type :=
  { rb_cache : gmap string string;
    rb_metadata : list (gmap string JValue);
    rb_build : FaissIndexer.BuildOutcome F }.

(** [runBuild] of [cli.js]; an [Err] is a run that ended in
    [process.exit(1)]. *)
Definition runBuild (inputDir : option (list Entry)) (o : Options)
    (reply : Embedder.TagsReply) : Result CliOutcome :=
  match inputDir with
  | None => Err DirectoryNotFound
  | Some entries =>
    let* cache := DocCache.generateDocCache md5 inputDir
                    {| DocCache.extensions := Some (extensions o);
                       DocCache.recursive := recursive o |} in
    let files := getFiles entries (extensions o) (recursive o) in
    let* metadata := cli_metadata o files [] ∅ in
    match metadata with
    | [] => Err NoDocuments
    | _ =>
      let* built := FaissIndexer.build F embed normalize
                      (FaissIndexer.new_indexer F (model o))
                      (Embedder.healthCheck (model o) reply) (Some metadata) in
      Ok {| rb_cache := cache; rb_metadata := metadata; rb_build := built |}
    end
  end.
End WithServices.

End IndexBuilder.

(* ===================================================================== *)
(** * Stand-ins for the external services, for the concrete runs          *)
(* ===================================================================== *)

Module Fixtures.

(** An embedding service that answers every text with the same vector of
    dimension 768, as the stubs of the repository's tests do. *)
Definition embed (text : string) : option (list Z) := Some (repeat 1 768).
Definition normalize (v : list Z) : list Z := v.

(** An engine that returns the first [k] ordinals, all with score 0. *)
Definition engine_search (vectors : list (list Z)) (queryVec : list Z) (k : Z)
    : FaissIndexer.EngineResult Z :=
  {| FaissIndexer.labels := map Z.of_nat (seq 0 (Z.to_nat k));
     FaissIndexer.distances := repeat 0 (Z.to_nat k) |}.


(** [new FaissIndexer()], not built yet. *)
Definition indexer : FaissIndexer.Indexer Z :=
  FaissIndexer.new_indexer Z "nomic-embed-text".

(** An indexer loaded with two vectors and their two metadata entries. *)
Definition loaded : FaissIndexer.Indexer Z :=
  {| FaissIndexer.dimension := 768;
     FaissIndexer.index := Some [repeat 1 768; repeat 1 768];
     FaissIndexer.metadata :=
       [FaissIndexer.make_entry 0 (IndexBuilder.make_item "a.txt" 0 "Hello") "Hello";
        FaissIndexer.make_entry 1 (IndexBuilder.make_item "b.txt" 0 "World") "World"] |}.

Definition healthy : Embedder.Health :=
  {| Embedder.ok := true; Embedder.message := "Ollama ready with nomic-embed-text" |}.

(** A splitter that returns the whole text as a single chunk. *)
Definition langchain (call : Splitter.SplitterCall) (text : string)
    : Result (list string) := Ok [text].

(** A digest that tells any two contents apart. *)
Definition md5 (content : string) : string := "digest-of-" ++ content.

(** The answer of a service that has the default model installed. *)
Definition tags : Embedder.TagsReply :=
  Embedder.Reply (Some [Some "nomic-embed-text:latest"]).

(** Two files whose chunk identifiers coincide: both derive [a_0]. *)
Definition twin_names : list FS.Entry :=
  [FS.EFile "a.txt" "alpha"; FS.EFile "a.md" "beta"].

(** A directory with a hidden file next to a visible one. *)
Definition with_hidden : list FS.Entry :=
  [FS.EFile ".notes.md" "hidden text"; FS.EFile "a.txt" "alpha"].

End Fixtures.

(* ===================================================================== *)
(** * lib/embedder.js: batches and normalization                          *)
(* ===================================================================== *)

Module EmbedderOps.

Section Batch.
Variable F : Type.
(** [this.embed], as for the indexer: [None] when the request is rejected. *)
Variable embed : string → option (list F).

(** The [for] loop of [embedBatch] from position [i]. A rejected [embed]
    rejects the whole batch; the first component is the list of the calls
    [onProgress(i + 1, texts.length)] made up to then. *)
Fixpoint embedBatch_loop (total i : nat) (texts : list string)
    (embeddings : list (list F)) (progress : list (nat * nat))
    : list (nat * nat) * Result (list (list F)) :=
  match texts with
  | [] => (progress, Ok embeddings)
  | text :: rest =>
    match embed text with
    | None => (progress, Err EmbedError)
    | Some v =>
      embedBatch_loop total (S i) rest (embeddings ++ [v])%list
        (progress ++ [(S i, total)])%list
    end
  end.

Definition embedBatch (texts : list string)
    : list (nat * nat) * Result (list (list F)) :=
  embedBatch_loop (length texts) 0 texts [] [].
End Batch.

Section Normalize.
(** The elements of a [Float32Array] and the doubles JavaScript computes
    with; the arithmetic itself is kept abstract. *)
Variables F32 F64 : Type.
(** Reading an element widens it, storing one rounds it. *)
Variable widen : F32 → F64.
Variable round : F64 → F32.
Variable fzero : F64.
Variables fadd fmul fdiv : F64 → F64 → F64.
Variable fsqrt : F64 → F64.
(** [norm === 0]. *)
Variable is_zero : F64 → bool.

Definition norm_of (vec : list F32) : F64 :=
  fsqrt (foldl (λ norm x, fadd norm (fmul (widen x) (widen x))) fzero vec).

Definition normalize (vec : list F32) : list F32 :=
  if is_zero (norm_of vec) then vec
  else map (λ x, round (fdiv (widen x) (norm_of vec))) vec.
End Normalize.

End EmbedderOps.

(* ===================================================================== *)
(** * lib/faissIndexer.js and index.js: statistics and queries            *)
(* ===================================================================== *)

Module IndexerApi.
Import JS.

(** The options of [new FaissIndexer(options)] that are plain settings. *)
Record Settings : Type :=
  { indexType : string; model : string; baseUrl : string }.

(** [options.x || default]: an absent or empty option takes the default. *)
Definition or_default (option_value : option string) (default_value : string) : string :=
  match option_value with
  | Some v => if String.eqb v "" then default_value else v
  | None => default_value
  end.

Definition settings_of (indexType model baseUrl : option string) : Settings :=
  {| indexType := or_default indexType "IP";
     model := or_default model "nomic-embed-text";
     baseUrl := or_default baseUrl "http://localhost:11434" |}.

(** What [getStats] returns. *)
Record Stats : Type :=
  { st_vectors : nat; st_dimension : nat; st_type : string;
    st_model : string; st_baseUrl : string }.

Section WithOracle.
Variable F : Type.
Variable embed : string → option (list F).
Variable normalize : list F → list F.
Variable engine_search : list (list F) → list F → Z → FaissIndexer.EngineResult F.

Definition getStats (settings : Settings) (self : FaissIndexer.Indexer F) : Stats :=
  {| st_vectors := match FaissIndexer.index F self with
                   | Some vectors => length vectors
                   | None => 0
                   end;
     st_dimension := FaissIndexer.dimension F self;
     st_type := indexType settings;
     st_model := model settings;
     st_baseUrl := baseUrl settings |}.

(** [query] of [index.js]: both files of the index directory must exist;
    then a fresh indexer loads them and runs the search. *)
Definition query (index_file : option (list (list F)))
    (metadata_file : option (list (gmap string JValue)))
    (queryText : string) (topK : Z) (model : string)
    : Result (list (FaissIndexer.Hit F)) :=
  match index_file, metadata_file with
  | None, _ => Err IndexNotFound
  | Some _, None => Err MetadataNotFound
  | Some _, Some _ =>
    let* indexer := FaissIndexer.load F (FaissIndexer.new_indexer F model)
                      index_file metadata_file in
    FaissIndexer.search F embed normalize engine_search indexer queryText topK
  end.
End WithOracle.

End IndexerApi.

(* ===================================================================== *)
(** * cli.js: wrapping the text of a result                               *)
(* ===================================================================== *)

Module Cli.

(** [s.lastIndexOf(" ", from)]: the largest position at most [from] that
    holds a space, scanning from position [i] with the best found so far. *)
Fixpoint last_space (s : string) (i from : nat) (found : option nat) : option nat :=
  match s with
  | EmptyString => found
  | String c s' =>
    if (i <=? from)%nat
    then last_space s' (S i) from (if Ascii.eqb c " " then Some i else found)
    else found
  end.

Definition lastIndexOf_space (s : string) (from : nat) : option nat :=
  last_space s 0 from None.

(** [s.substring(n)]. *)
Definition substring_from (s : string) (n : nat) : string :=
  substring n (String.length s - n) s.

(** The [while] loop of [wrapText]; one unit of fuel per test of the loop
    condition. *)
Fixpoint wrap_loop (fuel : nat) (width : nat) (remaining : string)
    (lines : list string) : option (list string) :=
  match fuel with
  | O => None
  | S fuel' =>
    if (width <? String.length remaining)%nat then
      let breakPoint :=
        match lastIndexOf_space remaining width with
        | None => width
        | Some b => if (2 * b <? width)%nat then width else b
        end in
      wrap_loop fuel' width
        (JS.trim_start (substring_from remaining breakPoint))
        (lines ++ [substring 0 breakPoint remaining])%list
    else Some (if String.eqb remaining "" then lines else lines ++ [remaining])%list
  end.

Definition wrapText_fuel (fuel : nat) (text : string) (width : nat)
    : option (list string) :=
  if (String.length text <=? width)%nat then Some [text]
  else wrap_loop fuel width text [].

End Cli.

(* ===================================================================== *)
(** * Reference notions for the enumerations and the metadata             *)
(* ===================================================================== *)

Module Reference.
Import FS.

(** The extension test of [docCache.js]: no list, or an empty one, lets
    every file through. *)
Definition cache_wants (extensions : option (list string)) (name : string) : bool :=
  match extensions with
  | None | Some [] => true
  | Some exts => JS.arr_includes exts (Path.toLowerCase (Path.extname name))
  end.

(** The extension test of [index.js] and [cli.js]. *)
Definition builder_wants (extensions : list string) (name : string) : bool :=
  JS.arr_includes extensions (Path.toLowerCase (Path.extname name)).

(** No segment of the path is hidden. *)
Definition visible (p : list string) : Prop := Forall (λ seg, hidden seg = false) p.

(** Reachable by the scan: anywhere under a recursive scan, otherwise only
    in the scanned directory itself. *)
Definition in_reach (recursive : bool) (p : list string) : Prop :=
  recursive = true ∨ length p = 1%nat.

Section WithLangChain.
Variable langchain : Splitter.SplitterCall → string → Result (list string).

(** The chunks [runBuild] takes from a file: none when the file cannot be
    read or is empty. *)
Definition cli_file_chunks (o : IndexBuilder.Options) (f : FileRef)
    : Result (list string) :=
  match IndexBuilder.readFileContent f with
  | None | Some "" => Ok []
  | Some content =>
    Splitter.splitTextByFileType langchain content (Path.basename (fr_path f))
      (IndexBuilder.splitter_options o)
  end.

End WithLangChain.

(** The options [o] with another value for [splitter] (the [--splitter]
    flag of the command line). *)
Definition with_splitter (s : string) (o : IndexBuilder.Options)
    : IndexBuilder.Options :=
  {| IndexBuilder.chunkSize := IndexBuilder.chunkSize o;
     IndexBuilder.chunkOverlap := IndexBuilder.chunkOverlap o;
     IndexBuilder.extensions := IndexBuilder.extensions o;
     IndexBuilder.recursive := IndexBuilder.recursive o;
     IndexBuilder.model := IndexBuilder.model o;
     IndexBuilder.splitter := s |}.

(** The characters of [s] that are not white space. *)
Fixpoint strip_ws (s : string) : string :=
  match s with
  | EmptyString => EmptyString
  | String c s' => if JS.is_ws c then strip_ws s' else String c (strip_ws s')
  end.

(** The lines one after the other. *)
Definition joined (lines : list string) : string := foldr String.append "" lines.

(** The items pushed for the chunks of one file. *)
Definition file_items (f : FileRef) (chunks : list string)
    : list (gmap string JS.JValue) :=
  imap (IndexBuilder.make_item (Path.relative (fr_path f))) chunks.

End Reference.

(* ===================================================================== *)
(** * Properties of the chunker                                           *)
(* ===================================================================== *)

Section ChunkerFacts.
Import TextSplitter.

Variable text : string.
Variables chunkSize overlap : Z.

Let len := Z.of_nat (String.length text).




(** With the overlap at least the chunk size and a text that is not empty
    and longer than a chunk, [start] never moves forward: the loop runs for
    ever. *)
Lemma chunk_loop_stuck fuel start chunks :
  chunkSize ≤ overlap → 0 < len → chunkSize < len → start ≤ 0 →
  chunk_loop fuel text chunkSize overlap start chunks = None.
Proof.
  intros Hge Hpos Hlong. revert start chunks.
  induction fuel as [|fuel IH]; intros start chunks Hstart; [done|].
  simpl. fold len.
  destruct (Z.ltb_spec start len); [|lia].
  destruct (Z.geb_spec (Z.min (start + chunkSize) len - overlap + overlap) len);
    [lia|].
  apply IH. lia.
Qed.

End ChunkerFacts.



(** The two runs of the repository's tests. *)
Example chunk_test_overlap :
  TextSplitter.chunkTextSync_fuel 21 "0123456789ABCDEFGHIJ" 10 3
  = Some ["0123456789"; "789ABCDEFG"; "EFGHIJ"].
Proof. reflexivity. Qed.

Example chunk_test_small :
  TextSplitter.chunkTextSync_fuel 6 "Hello" 1000 100 = Some ["Hello"].
Proof. reflexivity. Qed.

(** C6. [chunkTextSync] checks nothing: with the overlap equal to the chunk
    size (10 and 10) on a text of 20 characters the loop never returns, and
    with both at 1000 on [Hello] it returns the single chunk. In neither case
    is a configuration error raised. *)
Theorem C6_chunkTextSync_accepts_overlap_ge_size :
  TextSplitter.chunkTextSync_diverges "0123456789ABCDEFGHIJ" 10 10 ∧
  TextSplitter.chunkTextSync_fuel 1 "Hello" 1000 1000 = Some ["Hello"].
Proof.
  split.
  - intros fuel. apply chunk_loop_stuck; simpl; lia.
  - reflexivity.
Qed.

(* ===================================================================== *)
(** * Properties of the health check                                      *)
(* ===================================================================== *)

Section HealthFacts.
Import Embedder.

Lemma some_includes_true models model :
  some_includes models model = Some true ↔
  ∃ before name after,
    models = (map Some before ++ Some name :: after)%list ∧
    JS.includes name model = true.
Proof.
  induction models as [|[name|] rest IH]; simpl.
  - split; [done|]. intros (before & ? & ? & Heq & _). by destruct before.
  - destruct (JS.includes name model) eqn:Hinc.
    + split; [|done]. intros _. by exists [], name, rest.
    + rewrite IH. split.
      * intros (before & n & after & -> & Hn). by exists (name :: before), n, after.
      * intros ([|b before] & n & after & Heq & Hn); simplify_eq/=; [congruence|].
        by exists before, n, after.
  - split; [done|]. intros ([|b before] & ? & ? & Heq & _); simplify_eq/=.
Qed.

Lemma some_includes_false names model :
  Forall (λ name, JS.includes name model = false) names →
  some_includes (map Some names) model = Some false.
Proof. induction 1 as [|name names Hname _ IH]; simpl; [done|]. by rewrite Hname. Qed.

Lemma healthCheck_ok_inv model reply :
  ok (healthCheck model reply) = true →
  ∃ models, reply = Reply (Some models) ∧ some_includes models model = Some true.
Proof.
  destruct reply as [msg|[models|]]; simpl; [done| |done].
  destruct (some_includes models model) as [[]|] eqn:Hscan; [|done..].
  intros _. by exists models.
Qed.
End HealthFacts.

(** C8, as stated, fails on the repository's own test input: with
    [nomic-embed-text] configured and only [nomic-embed-text:latest] listed the
    check answers [ok = true], although the configured name is not one of the
    listed names. *)
Lemma C8_counterexample :
  Embedder.ok (Embedder.healthCheck "nomic-embed-text"
                 (Embedder.Reply (Some [Some "nomic-embed-text:latest"]))) = true ∧
  ¬ Embedder.reachable_and_listed "nomic-embed-text"
      (Embedder.Reply (Some [Some "nomic-embed-text:latest"])).
Proof.
  split; [reflexivity|].
  intros (models & [= <-] & Hin).
  apply list_elem_of_In in Hin. by destruct Hin as [|[]].
Qed.

(** C8, amended. [healthCheck] answers [ok = true] exactly when the listing
    request resolved and some listed name contains the configured model name
    as a substring (every entry scanned before it carrying a name). When the
    request resolved and no listed name contains the configured name, the
    answer is [ok = false] with the message that tells how to pull the
    model. *)
Theorem C8_healthCheck_substring (model : string) (reply : Embedder.TagsReply) :
  (Embedder.ok (Embedder.healthCheck model reply) = true ↔
   Embedder.reachable_and_matched model reply) ∧
  (∀ names,
     reply = Embedder.Reply (Some (map Some names)) →
     Forall (λ name, JS.includes name model = false) names →
     Embedder.healthCheck model reply =
     {| Embedder.ok := false;
        Embedder.message :=
          "Model '" ++ model ++ "' not found. Run: ollama pull " ++ model |}).
Proof.
  split; [split|].
  - intros Hok. apply healthCheck_ok_inv in Hok as (models & -> & Hscan).
    apply some_includes_true in Hscan as (before & name & after & -> & Hinc).
    by exists before, name, after.
  - intros (before & name & after & -> & Hinc). simpl.
    assert (Hscan : Embedder.some_includes
                      (map Some before ++ Some name :: after)%list model = Some true).
    { apply some_includes_true. by exists before, name, after. }
    by rewrite Hscan.
  - intros names -> Hnone. simpl. by rewrite some_includes_false.
Qed.

Lemma C8_healthCheck_substring_witness :
  Embedder.healthCheck "bge-m3" (Embedder.Reply (Some (map Some ["other-model"]))) =
  {| Embedder.ok := false;
     Embedder.message := "Model 'bge-m3' not found. Run: ollama pull bge-m3" |}.
Proof.
  apply (C8_healthCheck_substring "bge-m3"
           (Embedder.Reply (Some (map Some ["other-model"])))) with (names := ["other-model"]).
  - reflexivity.
  - repeat constructor.
Defined.

(* ===================================================================== *)
(** * Properties of the change detection                                  *)
(* ===================================================================== *)

Section DetectFacts.
Import FS DocCache.

Variable md5 : string → string.
Variable existingCache : gmap string string.

Let key (f : FileRef) : string := Path.basename (fr_path f).
Let is_added := DocCache.is_added existingCache.
Let is_modified := DocCache.is_modified md5 existingCache.
Let is_unchanged := DocCache.is_unchanged md5 existingCache.

Lemma detect_fold files st :
  foldl (detect_step md5 existingCache) st files =
  {| ds_result :=
       {| added := (added (ds_result st) ++ map key (List.filter is_added files))%list;
          modified :=
            (modified (ds_result st) ++ map key (List.filter is_modified files))%list;
          removed := removed (ds_result st);
          unchanged :=
            (unchanged (ds_result st) ++ map key (List.filter is_unchanged files))%list |};
     ds_current := list_to_set (map key files) ∪ ds_current st |}.
Proof.
  revert st. induction files as [|f files IH]; intros [[a m r u] cur]; simpl.
  - rewrite !app_nil_r. f_equal. set_solver.
  - rewrite IH.
    unfold detect_step, is_modified, is_unchanged, is_added,
      DocCache.is_modified, DocCache.is_unchanged, DocCache.is_added. simpl.
    fold (key f).
    destruct (cache_falsy existingCache (key f)); simpl.
    + rewrite <- !app_assoc. simpl. f_equal. set_solver.
    + destruct (bool_decide _); simpl; rewrite <- !app_assoc; simpl;
        f_equal; set_solver.
Qed.

Variable dir : list Entry.
Variable opts : Options.

Let files := getFiles dir opts.
Let changes := detectChanges md5 dir existingCache opts.

Lemma detect_added k :
  k ∈ added changes ↔ ∃ f, f ∈ files ∧ key f = k ∧ is_added f = true.
Proof.
  unfold changes, detectChanges. rewrite detect_fold. simpl.
  rewrite list_elem_of_In, in_map_iff.
  setoid_rewrite filter_In. setoid_rewrite <- list_elem_of_In. naive_solver.
Qed.

Lemma detect_modified k :
  k ∈ modified changes ↔ ∃ f, f ∈ files ∧ key f = k ∧ is_modified f = true.
Proof.
  unfold changes, detectChanges. rewrite detect_fold. simpl.
  rewrite list_elem_of_In, in_map_iff.
  setoid_rewrite filter_In. setoid_rewrite <- list_elem_of_In. naive_solver.
Qed.

Lemma detect_unchanged k :
  k ∈ unchanged changes ↔ ∃ f, f ∈ files ∧ key f = k ∧ is_unchanged f = true.
Proof.
  unfold changes, detectChanges. rewrite detect_fold. simpl.
  rewrite list_elem_of_In, in_map_iff.
  setoid_rewrite filter_In. setoid_rewrite <- list_elem_of_In. naive_solver.
Qed.

(** [removed] holds the keys of the previous cache that name no scanned
    file. *)
Lemma detect_removed k :
  k ∈ removed changes ↔ k ∈ dom existingCache ∧ k ∉ map key files.
Proof.
  unfold changes, detectChanges. rewrite detect_fold. simpl.
  rewrite list_elem_of_filter, list_elem_of_fmap.
  assert (Hcur : k ∉ (list_to_set (map key files) ∪ ∅ : gset string)
                 ↔ k ∉ map key files).
  { rewrite elem_of_union, elem_of_list_to_set. set_solver. }
  fold files. rewrite Hcur. split.
  - intros (Hk & [kv ?] & -> & Hin). split; [|done].
    apply elem_of_map_to_list in Hin. apply elem_of_dom. by eexists.
  - intros (Hdom & Hk). split; [done|].
    apply elem_of_dom in Hdom as [h Hh]. exists (k, h). split; [done|].
    by apply elem_of_map_to_list.
Qed.

Lemma class_exhaustive f :
  is_added f = true ∨ is_modified f = true ∨ is_unchanged f = true.
Proof.
  unfold is_modified, is_unchanged, is_added,
    DocCache.is_modified, DocCache.is_unchanged.
  destruct (DocCache.is_added existingCache f); simpl; [by left|].
  destruct (bool_decide _); auto.
Qed.

(** No key is left out: the four arrays together hold exactly the current
    basenames and the keys of the previous cache. *)
Lemma detect_union k :
  k ∈ added changes ∨ k ∈ modified changes ∨
  k ∈ unchanged changes ∨ k ∈ removed changes
  ↔ k ∈ map key files ∨ k ∈ dom existingCache.
Proof.
  rewrite detect_added, detect_modified, detect_unchanged, detect_removed.
  split.
  - intros [(f & ? & <- & _)|[(f & ? & <- & _)|[(f & ? & <- & _)|[? _]]]];
      [left; apply list_elem_of_fmap; eauto..|by right].
  - destruct (decide (k ∈ map key files)) as [Hin|Hout]; [|tauto].
    intros _. apply list_elem_of_fmap in Hin as (f & -> & Hf).
    destruct (class_exhaustive f) as [?|[?|?]]; eauto 10.
Qed.

(** When no two scanned files share a basename the arrays do not overlap. *)
Lemma detect_disjoint k :
  NoDup (map key files) →
  (k ∈ added changes →
     (k ∉ modified changes) ∧ (k ∉ unchanged changes) ∧ (k ∉ removed changes)) ∧
  (k ∈ modified changes → (k ∉ unchanged changes) ∧ (k ∉ removed changes)) ∧
  (k ∈ unchanged changes → k ∉ removed changes).
Proof.
  intros Hnodup.
  assert (Hsame : ∀ f g, f ∈ files → g ∈ files → key f = key g → f = g).
  { intros f g Hf Hg Hkey.
    apply list_elem_of_lookup in Hf as [i Hi]. apply list_elem_of_lookup in Hg as [j Hj].
    assert (i = j) as ->; [|congruence].
    eapply NoDup_lookup; [exact Hnodup| |];
      rewrite list_lookup_fmap; [by rewrite Hi|by rewrite Hj, Hkey]. }
  rewrite detect_added, detect_modified, detect_unchanged, detect_removed.
  unfold is_modified, is_unchanged, is_added,
    DocCache.is_modified, DocCache.is_unchanged.
  assert (Hclash : ∀ f, f ∈ files →
            ¬ (key f ∈ dom existingCache ∧ key f ∉ map key files)).
  { intros f Hf [_ Hout]. apply Hout, list_elem_of_fmap. eauto. }
  split; [|split]; intros (f & Hf & <- & Hc); repeat apply conj; auto;
    intros (g & Hg & Hkey & Hd); apply (Hsame g f) in Hkey as ->; try done;
    destruct (DocCache.is_added existingCache f), (bool_decide _);
    simpl in *; congruence.
Qed.
End DetectFacts.

(** C4. Two files that share a basename break the partition. Under a
    recursive scan of [a/notes.txt] (content [X]) and [b/notes.txt] (content
    [Y]), with a previous cache that maps [notes.txt] to the digest of [X],
    the key [notes.txt] is reported both as unchanged and as modified, for any
    digest function that tells the two contents apart and yields no empty
    digest. *)
Theorem C4_shared_basename_overlaps (md5 : string → string) :
  md5 "X" ≠ md5 "Y" → md5 "X" ≠ "" →
  let changes :=
    DocCache.detectChanges md5
      [FS.EDir "a" [FS.EFile "notes.txt" "X"]; FS.EDir "b" [FS.EFile "notes.txt" "Y"]]
      {[ "notes.txt" := md5 "X" ]}
      {| DocCache.extensions := None; DocCache.recursive := true |} in
  "notes.txt" ∈ DocCache.unchanged changes ∧ "notes.txt" ∈ DocCache.modified changes.
Proof.
  intros Hdiff Hnonempty changes.
  assert (Hfalsy : DocCache.cache_falsy {[ "notes.txt" := md5 "X" ]} "notes.txt" = false).
  { unfold DocCache.cache_falsy. rewrite lookup_singleton_eq.
    by apply String.eqb_neq. }
  split.
  - apply detect_unchanged.
    exists {| FS.fr_path := ["a"; "notes.txt"]; FS.fr_content := "X" |}.
    split; [|split; [done|]].
    + apply list_elem_of_In. simpl. auto.
    + unfold DocCache.is_unchanged, DocCache.is_added.
      change (Path.basename _) with "notes.txt". rewrite Hfalsy.
      apply bool_decide_eq_true_2. by rewrite lookup_singleton_eq.
  - apply detect_modified.
    exists {| FS.fr_path := ["b"; "notes.txt"]; FS.fr_content := "Y" |}.
    split; [|split; [done|]].
    + apply list_elem_of_In. simpl. auto.
    + unfold DocCache.is_modified, DocCache.is_added.
      change (Path.basename _) with "notes.txt". rewrite Hfalsy.
      apply negb_true_iff, bool_decide_eq_false_2.
      rewrite lookup_singleton_eq. simpl. congruence.
Qed.

Lemma C4_shared_basename_overlaps_witness :
  let changes :=
    DocCache.detectChanges Fixtures.md5
      [FS.EDir "a" [FS.EFile "notes.txt" "X"]; FS.EDir "b" [FS.EFile "notes.txt" "Y"]]
      {[ "notes.txt" := "digest-of-X" ]}
      {| DocCache.extensions := None; DocCache.recursive := true |} in
  "notes.txt" ∈ DocCache.unchanged changes ∧ "notes.txt" ∈ DocCache.modified changes.
Proof.
  apply (C4_shared_basename_overlaps Fixtures.md5); simpl; discriminate.
Defined.

(** The same run, computed: the arrays [modified] and [unchanged] both list
    [notes.txt]. *)
Example detect_shared_basename_run :
  DocCache.detectChanges Fixtures.md5
    [FS.EDir "a" [FS.EFile "notes.txt" "X"]; FS.EDir "b" [FS.EFile "notes.txt" "Y"]]
    {[ "notes.txt" := "digest-of-X" ]}
    {| DocCache.extensions := None; DocCache.recursive := true |}
  = {| DocCache.added := []; DocCache.modified := ["notes.txt"];
       DocCache.removed := []; DocCache.unchanged := ["notes.txt"] |}.
Proof. vm_compute. reflexivity. Qed.

(* ===================================================================== *)
(** * Properties of the indexer                                           *)
(* ===================================================================== *)

Section EntryFacts.
Import JS FaissIndexer.

Lemma extra_fields_lookup item k :
  extra_fields item !! k =
  if bool_decide (k ∈ ["doc"; "chunk_id"; "chunk"]) then None else item !! k.
Proof.
  unfold extra_fields. rewrite map_lookup_filter. unfold arr_includes.
  destruct (item !! k) as [v|]; simpl; [|by case_bool_decide].
  case_bool_decide; simpl; by rewrite ?option_guard_True, ?option_guard_False by
    (simpl; auto).
Qed.

(** The [id] of a stored entry is the ordinal, unless the input item brings
    an [id] of its own: the spread then overwrites the ordinal. *)
Lemma make_entry_id n item chunk :
  get (make_entry n item chunk) "id" = default (JNum (Z.of_nat n)) (item !! "id").
Proof.
  unfold get, make_entry. rewrite lookup_union, extra_fields_lookup.
  rewrite bool_decide_eq_false_2 by (rewrite !elem_of_cons, elem_of_nil; naive_solver).
  rewrite !lookup_insert_ne, lookup_singleton_eq by done.
  by destruct (item !! "id").
Qed.

Lemma make_entry_chunk n item chunk :
  get (make_entry n item chunk) "chunk" = JStr chunk.
Proof.
  unfold get, make_entry. rewrite lookup_union, extra_fields_lookup.
  rewrite bool_decide_eq_true_2 by (rewrite !elem_of_cons; auto).
  by rewrite lookup_insert_eq.
Qed.

Lemma make_entry_doc n item chunk :
  get (make_entry n item chunk) "doc" = get item "doc".
Proof.
  unfold get at 1, make_entry. rewrite lookup_union, extra_fields_lookup.
  rewrite bool_decide_eq_true_2 by (rewrite !elem_of_cons; auto).
  by rewrite !lookup_insert_ne, lookup_insert_eq by done.
Qed.

Lemma make_entry_chunk_id n item chunk :
  get (make_entry n item chunk) "chunk_id" = get item "chunk_id".
Proof.
  unfold get at 1, make_entry. rewrite lookup_union, extra_fields_lookup.
  rewrite bool_decide_eq_true_2 by (rewrite !elem_of_cons; auto).
  by rewrite lookup_insert_ne, lookup_insert_eq by done.
Qed.

(** Writing the entry to disk keeps every property that is defined. *)
Lemma stringify_entry_get e k :
  get (stringify_entry e) k = get e k.
Proof.
  unfold get, stringify_entry. rewrite map_lookup_filter.
  destruct (e !! k) as [v|]; simpl; [|done].
  destruct (decide (v = JUndef)) as [->|Hv].
  - by rewrite option_guard_False by (simpl; auto).
  - by rewrite option_guard_True.
Qed.
End EntryFacts.

Section KeptFacts.
Import JS FaissIndexer.

Lemma kept_from_items i items :
  map snd (kept_from i items) = List.filter nonblank items.
Proof.
  revert i. induction items as [|item items IH]; intros i; simpl; [done|].
  destruct (nonblank item); simpl; by rewrite IH.
Qed.

Lemma kept_from_positions i items :
  Forall (λ pit, (i ≤ pit.1 < i + length items)%nat ∧
                 items !! (pit.1 - i)%nat = Some pit.2 ∧ nonblank pit.2 = true)
         (kept_from i items).
Proof.
  revert i. induction items as [|item items IH]; intros i; simpl; [constructor|].
  assert (Htail : Forall
            (λ pit, (i ≤ pit.1 < i + S (length items))%nat ∧
                    (item :: items) !! (pit.1 - i)%nat = Some pit.2 ∧
                    nonblank pit.2 = true)
            (kept_from (S i) items)).
  { eapply Forall_impl; [apply IH|]. intros [p it] (Hp & Hit & Hnb). simpl in *.
    split; [lia|]. split; [|done].
    replace (p - i)%nat with (S (p - S i)) by lia. done. }
  destruct (nonblank item) eqn:Hnb; [|done].
  constructor; [|done]. simpl. rewrite Nat.sub_diag. split; [lia|done].
Qed.

Lemma kept_from_increasing i items :
  StronglySorted lt (map fst (kept_from i items)).
Proof.
  revert i. induction items as [|item items IH]; intros i; simpl; [constructor|].
  destruct (nonblank item); [|apply IH].
  simpl. constructor; [apply IH|].
  apply Forall_map. eapply Forall_impl; [apply (kept_from_positions (S i))|].
  simpl. intros ? (? & _). lia.
Qed.

(** When every item has a readable text, the items kept are those that are
    not blank. *)
Lemma kept_count items :
  Forall (λ item, chunk_text item = Ok (item_text item)) items →
  length (List.filter nonblank items)
  = (length items - length (List.filter item_blank items))%nat ∧
  (length (List.filter item_blank items) ≤ length items)%nat.
Proof.
  induction 1 as [|item items Hitem _ IH]; simpl; [done|].
  assert (Hb : item_blank item = blank (item_text item))
    by (unfold item_blank; by rewrite Hitem).
  assert (Hn : nonblank item = negb (blank (item_text item)))
    by (unfold nonblank; by rewrite Hitem).
  rewrite Hb, Hn. destruct (blank (item_text item)); simpl; lia.
Qed.
End KeptFacts.

Section BuildFacts.
Import JS FaissIndexer.

Variable F : Type.
Variable embed : string → option (list F).
Variable normalize : list F → list F.

Lemma build_loop_spec dim total items i st st' :
  build_loop F embed normalize dim total i items st = Ok st' →
  ∃ vs,
    ls_index F st' = (ls_index F st ++ vs)%list ∧
    Forall2 (embedded_as F embed normalize dim) (map snd (kept_from i items)) vs ∧
    ls_metadata F st' =
      (ls_metadata F st ++
       imap (λ j item, make_entry (length (ls_metadata F st) + j) item (item_text item))
            (map snd (kept_from i items)))%list ∧
    ls_progress F st' =
      (ls_progress F st ++ map (λ pit, (S pit.1, total, pit.2)) (kept_from i items))%list ∧
    Forall (λ item, chunk_text item = Ok (item_text item)) items.
Proof.
  revert i st. induction items as [|item items IH]; intros i st Hrun; simpl in *.
  - injection Hrun as <-. exists []. by rewrite !app_nil_r.
  - destruct (chunk_text item) as [c|e] eqn:Hc; simpl in Hrun; [|done].
    assert (Htext : item_text item = c) by (unfold item_text; by rewrite Hc).
    assert (Hnb : nonblank item = negb (blank c)) by (unfold nonblank; by rewrite Hc).
    rewrite Hnb. destruct (blank c) eqn:Hblank; simpl.
    + apply IH in Hrun as (vs & ? & ? & ? & ? & ?). exists vs.
      repeat split; try done. constructor; [by rewrite Htext|done].
    + destruct (embed c) as [raw|] eqn:Hembed; [|done].
      unfold index_add in Hrun.
      case_bool_decide as Hdim; simpl in Hrun; [|done].
      apply IH in Hrun as (vs & Hidx & Hvs & Hmeta & Hprog & Hall). simpl in *.
      exists (normalize raw :: vs). repeat split.
      * by rewrite Hidx, <- app_assoc.
      * constructor; [|done]. exists raw. by rewrite Htext.
      * rewrite Hmeta, <- app_assoc. f_equal. simpl. rewrite Nat.add_0_r, Htext.
        f_equal. apply imap_ext. intros j x _. simpl.
        rewrite length_app. simpl. f_equal. lia.
      * by rewrite Hprog, <- app_assoc.
      * constructor; [by rewrite Htext|done].
Qed.

(** What a successful [build] has done. *)
Lemma build_spec self health items out :
  build F embed normalize self health (Some items) = Ok out →
  Embedder.ok health = true ∧ items ≠ [] ∧
  Forall (λ item, chunk_text item = Ok (item_text item)) items ∧
  index F (b_indexer F out) = Some (b_index_file F out) ∧
  b_vectors F out = length (b_index_file F out) ∧
  Forall2 (embedded_as F embed normalize (dimension F self))
          (List.filter nonblank items) (b_index_file F out) ∧
  metadata F (b_indexer F out) =
    imap (λ j item, make_entry j item (item_text item)) (List.filter nonblank items) ∧
  b_metadata_file F out = map stringify_entry (metadata F (b_indexer F out)) ∧
  b_progress F out =
    map (λ pit, (S pit.1, length items, pit.2)) (kept_from 0 items).
Proof.
  unfold build. destruct (Embedder.ok health); simpl; [|done].
  destruct items as [|item rest]; [done|].
  remember (item :: rest) as all eqn:Hall_eq.
  destruct (build_loop _ _ _ _ _ _ _ _) as [st|e] eqn:Hloop; simpl; [|done].
  intros [= <-]. simpl.
  apply build_loop_spec in Hloop as (vs & Hidx & Hvs & Hmeta & Hprog & Hall).
  simpl in Hidx, Hmeta, Hprog. rewrite kept_from_items in Hvs, Hmeta.
  subst vs. repeat split; try done. by subst all.
Qed.


End BuildFacts.

Section BlankFacts.
Import JS FaissIndexer.

Lemma trim_end_empty s : trim_end s = "" ↔ all_ws s = true.
Proof.
  destruct s as [|c s]; [done|].
  change (trim_end (String c s))
    with (if all_ws (String c s) then "" else String c (trim_end s)).
  by destruct (all_ws (String c s)).
Qed.

Lemma all_ws_trim_start s : all_ws (trim_start s) = all_ws s.
Proof.
  induction s as [|c s IH]; simpl; [done|].
  destruct (is_ws c) eqn:Hc; simpl; [done|]. by rewrite Hc.
Qed.

(** A text is blank for [build] exactly when it consists of white space
    only (the empty text included). *)
Lemma blank_all_ws s : blank s = all_ws s.
Proof.
  unfold blank, trim. apply eq_true_iff_eq.
  rewrite String.eqb_eq, trim_end_empty. by rewrite all_ws_trim_start.
Qed.
End BlankFacts.

Section AlignmentFacts.
Import JS FaissIndexer.

Variable F : Type.
Variable embed : string → option (list F).
Variable normalize : list F → list F.

(** After a successful [build] the metadata sequence and the index have the
    same length, and position [i] of both comes from the same input item:
    the vector is the normalized embedding of the item's text, the entry
    carries the item's text, document and chunk identifier. The entry's [id]
    is [i] unless the item has an [id] property of its own. *)
Lemma build_aligned self health items out :
  build F embed normalize self health (Some items) = Ok out →
  length (metadata F (b_indexer F out)) = b_vectors F out ∧
  ∀ i entry,
    metadata F (b_indexer F out) !! i = Some entry →
    ∃ item v,
      List.filter nonblank items !! i = Some item ∧
      b_index_file F out !! i = Some v ∧
      embedded_as F embed normalize (dimension F self) item v ∧
      get entry "id" = default (JNum (Z.of_nat i)) (item !! "id") ∧
      get entry "doc" = get item "doc" ∧
      get entry "chunk_id" = get item "chunk_id" ∧
      get entry "chunk" = JStr (item_text item).
Proof.
  intros Hbuild.
  apply build_spec in Hbuild as (_ & _ & _ & _ & Hn & Hvs & Hmeta & _ & _).
  rewrite Hmeta, Hn, length_imap. split; [by apply Forall2_length in Hvs|].
  intros i entry Hentry. rewrite list_lookup_imap in Hentry.
  destruct (List.filter nonblank items !! i) as [item|] eqn:Hitem; [|done].
  injection Hentry as <-.
  destruct (Forall2_lookup_l _ _ _ _ _ Hvs Hitem) as (v & Hv & Hemb).
  exists item, v. repeat split; try done.
  - apply make_entry_id.
  - apply make_entry_doc.
  - apply make_entry_chunk_id.
  - apply make_entry_chunk.
Qed.
End AlignmentFacts.

(** C1. An input item that brings an [id] property of its own keeps it: the
    spread of the extra fields is written after [id: this.metadata.length] and
    the filter in front of it lets [id] through. Building from the single item
    [{id: 5, doc: "a.txt", chunk: "hello", chunk_id: "a_0"}] succeeds with one
    vector, and the entry at position 0 has [id] 5, not 0. *)
Theorem C1_input_id_overwrites_ordinal :
  ∃ out entry,
    FaissIndexer.build Z Fixtures.embed Fixtures.normalize
      Fixtures.indexer Fixtures.healthy
      (Some [ <["id" := JS.JNum 5]> (IndexBuilder.make_item "a.txt" 0 "hello") ])
    = Ok out ∧
    FaissIndexer.b_vectors Z out = 1%nat ∧
    FaissIndexer.metadata Z (FaissIndexer.b_indexer Z out) !! 0%nat = Some entry ∧
    JS.get entry "id" = JS.JNum 5.
Proof.
  eexists _, _. split; [vm_compute; reflexivity|].
  split; [reflexivity|]. split; [reflexivity|]. vm_compute. reflexivity.
Qed.

(** C2. After a successful [build] over [N] items of which [M] are blank
    (missing, empty or white space only), the index holds exactly [N - M]
    vectors, and the metadata written to disk is made, in order, of the
    entries of the items that are not blank: a blank item yields no entry and
    no ordinal, and every stored entry carries a text that is not blank. *)
Theorem C2_blank_items_skipped (F : Type) (embed : string → option (list F))
    (normalize : list F → list F) (self : FaissIndexer.Indexer F)
    (health : Embedder.Health) (items : list (gmap string JS.JValue))
    (out : FaissIndexer.BuildOutcome F) :
  FaissIndexer.build F embed normalize self health (Some items) = Ok out →
  let N := length items in
  let M := length (List.filter FaissIndexer.item_blank items) in
  (M ≤ N)%nat ∧
  FaissIndexer.b_vectors F out = (N - M)%nat ∧
  length (FaissIndexer.b_index_file F out) = (N - M)%nat ∧
  length (FaissIndexer.b_metadata_file F out) = (N - M)%nat ∧
  FaissIndexer.b_metadata_file F out =
    imap (λ j item, FaissIndexer.stringify_entry
                      (FaissIndexer.make_entry j item (FaissIndexer.item_text item)))
         (List.filter FaissIndexer.nonblank items) ∧
  Forall (λ item, FaissIndexer.item_blank item = false)
         (List.filter FaissIndexer.nonblank items) ∧
  Forall (λ entry, ∃ c, JS.get entry "chunk" = JS.JStr c ∧ JS.all_ws c = false)
         (FaissIndexer.b_metadata_file F out).
Proof.
  intros Hbuild N M.
  apply build_spec in Hbuild as (_ & _ & Hall & _ & Hn & Hvs & Hmeta & Hfile & _).
  destruct (kept_count items Hall) as [Hcount HM]. fold N M in Hcount, HM.
  apply Forall2_length in Hvs.
  assert (Hkept : Forall (λ item, FaissIndexer.chunk_text item
                                  = Ok (FaissIndexer.item_text item) ∧
                                  FaissIndexer.blank (FaissIndexer.item_text item) = false)
                         (List.filter FaissIndexer.nonblank items)).
  { apply List.Forall_forall. intros item Hin. apply filter_In in Hin as [Hin Hnb].
    rewrite List.Forall_forall in Hall. specialize (Hall item Hin).
    split; [done|]. unfold FaissIndexer.nonblank in Hnb. rewrite Hall in Hnb.
    by apply negb_true_iff. }
  rewrite Hfile, Hmeta, length_map, length_imap, Hn.
  repeat split; try lia.
  - by rewrite fmap_imap.
  - eapply Forall_impl; [exact Hkept|]. intros item [Htext Hblank].
    unfold FaissIndexer.item_blank. by rewrite Htext.
  - apply Forall_fmap, Forall_lookup_2. intros i entry Hentry.
    rewrite list_lookup_imap in Hentry.
    destruct (List.filter FaissIndexer.nonblank items !! i) as [item|] eqn:Hitem;
      [|done].
    injection Hentry as <-. exists (FaissIndexer.item_text item). simpl.
    rewrite stringify_entry_get, make_entry_chunk. split; [done|].
    rewrite <- blank_all_ws.
    eapply Forall_lookup_1 in Hkept as [_ ?]; eauto.
Qed.

(** The run of the repository's test "should skip empty chunks": three items,
    two of them blank, one vector. *)
Lemma C2_blank_items_skipped_witness :
  ∃ out,
    FaissIndexer.build Z Fixtures.embed Fixtures.normalize
      Fixtures.indexer Fixtures.healthy
      (Some [IndexBuilder.make_item "a.txt" 0 "Valid text";
             IndexBuilder.make_item "b.txt" 0 "   ";
             IndexBuilder.make_item "c.txt" 0 ""]) = Ok out ∧
    FaissIndexer.b_vectors Z out = 1%nat.
Proof.
  eexists. split; [vm_compute; reflexivity|].
  refine (proj1 (proj2 (C2_blank_items_skipped Z Fixtures.embed Fixtures.normalize
            Fixtures.indexer Fixtures.healthy
            [IndexBuilder.make_item "a.txt" 0 "Valid text";
             IndexBuilder.make_item "b.txt" 0 "   ";
             IndexBuilder.make_item "c.txt" 0 ""] _ _))).
  vm_compute. reflexivity.
Defined.

(** C7, as stated, fails: on the two items [Valid text] and [   ] the build
    succeeds, the callback is called once and not twice, and no call reports
    the total 2 as completed. *)
Lemma C7_counterexample :
  ∃ out,
    FaissIndexer.build Z Fixtures.embed Fixtures.normalize
      Fixtures.indexer Fixtures.healthy
      (Some [IndexBuilder.make_item "a.txt" 0 "Valid text";
             IndexBuilder.make_item "b.txt" 0 "   "]) = Ok out ∧
    length (FaissIndexer.b_progress Z out) = 1%nat ∧
    Forall (λ call, call.1.1 ≠ 2%nat) (FaissIndexer.b_progress Z out).
Proof.
  eexists. split; [vm_compute; reflexivity|]. split; [reflexivity|].
  repeat constructor. simpl. lia.
Qed.

(** C7, amended. During [build] the progress callback is called once for
    every item that is embedded and not for the items skipped as blank. The
    call for an item reports the item's position in the input counted from 1,
    the length of the input, and the item. The reported positions are
    strictly increasing and there are [N - M] calls for [N] items of which
    [M] are blank. *)
Theorem C7_progress_per_embedded_item (F : Type) (embed : string → option (list F))
    (normalize : list F → list F) (self : FaissIndexer.Indexer F)
    (health : Embedder.Health) (items : list (gmap string JS.JValue))
    (out : FaissIndexer.BuildOutcome F) :
  FaissIndexer.build F embed normalize self health (Some items) = Ok out →
  FaissIndexer.b_progress F out =
    map (λ pit, (S pit.1, length items, pit.2)) (FaissIndexer.kept_from 0 items) ∧
  length (FaissIndexer.b_progress F out) =
    (length items - length (List.filter FaissIndexer.item_blank items))%nat ∧
  StronglySorted lt (map (λ call, call.1.1) (FaissIndexer.b_progress F out)) ∧
  Forall (λ call, (1 ≤ call.1.1 ≤ length items)%nat ∧ call.1.2 = length items ∧
                  items !! (call.1.1 - 1)%nat = Some call.2 ∧
                  FaissIndexer.item_blank call.2 = false)
         (FaissIndexer.b_progress F out).
Proof.
  intros Hbuild.
  apply build_spec in Hbuild as (_ & _ & Hall & _ & _ & _ & _ & _ & Hprog).
  rewrite Hprog. repeat split.
  - rewrite length_map, <- (length_map snd), kept_from_items.
    by destruct (kept_count items Hall).
  - rewrite map_map. simpl.
    assert (Hgen : ∀ l, StronglySorted lt (map fst l) →
              StronglySorted lt (map (λ x : nat * gmap string JS.JValue, S x.1) l)).
    { induction l as [|[q it] l IHl]; simpl; [constructor|].
      intros Hs. apply StronglySorted_inv in Hs as [Hs Hq].
      constructor; [by apply IHl|].
      rewrite Forall_map in Hq. apply Forall_map.
      eapply Forall_impl; [exact Hq|]. simpl. lia. }
    apply Hgen, kept_from_increasing.
  - apply Forall_map. eapply Forall_impl; [apply kept_from_positions|].
    intros [p item] (Hp & Hitem & Hnb). simpl in *.
    rewrite Nat.sub_0_r in *. repeat split; try lia; [done|].
    apply Forall_lookup_1 with (i := p) (x := item) in Hall; [|done].
    unfold FaissIndexer.nonblank in Hnb. unfold FaissIndexer.item_blank.
    rewrite Hall in *. by apply negb_true_iff.
Qed.

Lemma C7_progress_per_embedded_item_witness :
  ∃ out,
    FaissIndexer.build Z Fixtures.embed Fixtures.normalize
      Fixtures.indexer Fixtures.healthy
      (Some [IndexBuilder.make_item "a.txt" 0 "Valid text";
             IndexBuilder.make_item "b.txt" 0 "   ";
             IndexBuilder.make_item "c.txt" 0 "More text"]) = Ok out ∧
    length (FaissIndexer.b_progress Z out) = 2%nat.
Proof.
  eexists. split; [vm_compute; reflexivity|].
  refine (proj1 (proj2 (C7_progress_per_embedded_item Z Fixtures.embed Fixtures.normalize
            Fixtures.indexer Fixtures.healthy
            [IndexBuilder.make_item "a.txt" 0 "Valid text";
             IndexBuilder.make_item "b.txt" 0 "   ";
             IndexBuilder.make_item "c.txt" 0 "More text"] _ _))).
  vm_compute. reflexivity.
Defined.

(* ===================================================================== *)
(** * Properties of the search                                            *)
(* ===================================================================== *)

Section SearchFacts.
Import JS FaissIndexer.

Variable F : Type.
Variable embed : string → option (list F).
Variable normalize : list F → list F.
Variable engine_search : list (list F) → list F → Z → EngineResult F.
Variable best : F → F → Prop.




(** Whatever the engine returns, [search] keeps the labels in their order
    and drops exactly the sentinels. *)
Lemma collect_hits_ids md result i todo :
  map (h_id F) (collect_hits F md result i todo)
  = List.filter (λ idx, negb (idx =? -1)) todo.
Proof.
  revert i. induction todo as [|idx todo IH]; intros i; simpl; [done|].
  destruct (idx =? -1); simpl; by rewrite IH.
Qed.

End SearchFacts.




(* ===================================================================== *)
(** * Properties of the two file enumerations                             *)
(* ===================================================================== *)

Section EnumerationFacts.
Import FS.

Lemma Entry_nested_ind (P : Entry → Prop) :
  (∀ name content, P (EFile name content)) →
  (∀ name children, Forall P children → P (EDir name children)) →
  (∀ name, P (EOther name)) →
  ∀ entry, P entry.
Proof.
  intros Hfile Hdir Hother. fix IH 1.
  intros [name content|name children|name]; [apply Hfile| |apply Hother].
  apply Hdir. induction children as [|child children IHc]; constructor;
    [apply IH|apply IHc].
Qed.

(** Every file that the enumeration of [docCache.js] returns lies on a path
    without a hidden segment. *)
Lemma doc_scan_entry_visible opts entry :
  ∀ currentPath f,
    f ∈ DocCache.scan_entry opts currentPath entry →
    ∃ suffix, fr_path f = (currentPath ++ suffix)%list ∧ suffix ≠ [] ∧
              Forall (λ seg, hidden seg = false) suffix.
Proof.
  induction entry as [name content|name children IH|name] using Entry_nested_ind;
    intros currentPath f; simpl.
  - destruct (JS.startsWith name ".") eqn:Hname; [by intros ?%elem_of_nil|].
    destruct (match DocCache.extensions opts with
              | Some [] | None => true
              | Some _ => _ end); [|by intros ?%elem_of_nil].
    intros ->%list_elem_of_singleton. exists [name]. simpl.
    repeat split; [done|]. by constructor.
  - destruct (JS.startsWith name ".") eqn:Hname; [by intros ?%elem_of_nil|].
    destruct (DocCache.recursive opts); [|by intros ?%elem_of_nil].
    rewrite list_elem_of_In, in_flat_map.
    intros (child & Hchild%list_elem_of_In & Hf%list_elem_of_In).
    rewrite List.Forall_forall in IH.
    destruct (IH child (proj1 (list_elem_of_In _ _) Hchild) _ _ Hf)
      as (suffix & Hpath & Hne & Hvis).
    exists (name :: suffix). rewrite Hpath, <- app_assoc. simpl.
    repeat split; [done|]. by constructor.
  - destruct (JS.startsWith name "."); by intros ?%elem_of_nil.
Qed.

Lemma doc_getFiles_visible dir opts f :
  f ∈ DocCache.getFiles dir opts →
  fr_path f ≠ [] ∧ Forall (λ seg, hidden seg = false) (fr_path f).
Proof.
  unfold DocCache.getFiles, DocCache.scan.
  rewrite list_elem_of_In, in_flat_map.
  intros (entry & _ & Hf%list_elem_of_In).
  apply doc_scan_entry_visible in Hf as (suffix & -> & ? & ?). done.
Qed.

Lemma doc_getFiles_basename_visible dir opts f :
  f ∈ DocCache.getFiles dir opts → hidden (Path.basename (fr_path f)) = false.
Proof.
  intros [Hne Hvis]%doc_getFiles_visible. unfold Path.basename.
  rewrite List.Forall_forall in Hvis. apply Hvis.
  destruct (exists_last Hne) as (front & seg & ->).
  rewrite last_last. apply in_or_app. simpl. auto.
Qed.

(** The enumeration of [index.js] and [cli.js] returns every regular file
    whose extension is asked for, hidden or not: under a recursive scan
    wherever it lies, otherwise when it lies in the scanned directory. *)
Lemma builder_getFiles_entry_complete exts recursive entries p content :
  file_at entries p content →
  recursive = true ∨ length p = 1%nat →
  JS.arr_includes exts (Path.toLowerCase (Path.extname (Path.basename p))) = true →
  ∀ dir, {| fr_path := (dir ++ p)%list; fr_content := content |}
         ∈ flat_map (IndexBuilder.getFiles_entry exts recursive dir) entries.
Proof.
  induction 1 as [entries name content Hin|entries name children p content Hin Hat IH];
    intros Hrec Hext dir; rewrite list_elem_of_In, in_flat_map.
  - exists (EFile name content). split; [by apply list_elem_of_In|].
    simpl. unfold Path.basename in Hext. simpl in Hext. rewrite Hext.
    simpl. auto.
  - exists (EDir name children). split; [by apply list_elem_of_In|].
    destruct Hrec as [->|Hlen].
    + simpl. apply list_elem_of_In.
      replace (dir ++ name :: p)%list with ((dir ++ [name]) ++ p)%list
        by (by rewrite <- app_assoc).
      apply IH; [by left|].
      unfold Path.basename in *. by destruct Hat.
    + simpl in Hlen. destruct p; [|done]. inversion Hat.
Qed.

Lemma builder_getFiles_complete exts recursive entries p content :
  file_at entries p content →
  recursive = true ∨ length p = 1%nat →
  JS.arr_includes exts (Path.toLowerCase (Path.extname (Path.basename p))) = true →
  {| fr_path := p; fr_content := content |}
  ∈ IndexBuilder.getFiles entries exts recursive.
Proof.
  intros Hat Hrec Hext.
  apply (builder_getFiles_entry_complete exts recursive entries p content
           Hat Hrec Hext []).
Qed.
End EnumerationFacts.

Section CacheFacts.
Import FS.

Variable md5 : string → string.

Lemma cache_fold_dom files (cache : gmap string string) :
  dom (foldl (λ cache f, <[Path.basename (fr_path f) := md5 (fr_content f)]> cache)
             cache files)
  = list_to_set (map (λ f, Path.basename (fr_path f)) files) ∪ dom cache.
Proof.
  revert cache. induction files as [|f files IH]; intros cache; simpl.
  - set_solver.
  - rewrite IH, dom_insert_L. set_solver.
Qed.

(** The keys of a generated cache are the basenames of the enumerated
    files. *)
Lemma generateDocCache_keys dir opts cache key :
  DocCache.generateDocCache md5 (Some dir) opts = Ok cache →
  key ∈ dom cache ↔
  ∃ f, f ∈ DocCache.getFiles dir opts ∧ Path.basename (fr_path f) = key.
Proof.
  intros [= <-]. rewrite cache_fold_dom, dom_empty_L, elem_of_union.
  rewrite elem_of_list_to_set, list_elem_of_fmap. set_solver.
Qed.

Lemma generateDocCache_no_hidden_key dir opts cache key :
  DocCache.generateDocCache md5 (Some dir) opts = Ok cache →
  hidden key = true → cache !! key = None.
Proof.
  intros Hgen Hkey. apply not_elem_of_dom.
  rewrite (generateDocCache_keys dir opts cache key Hgen).
  intros (f & Hf%doc_getFiles_basename_visible & <-). congruence.
Qed.
End CacheFacts.

Section MetadataFacts.
Import FS JS IndexBuilder.

Lemma make_item_chunk_id rel i c :
  item_chunk_id (make_item rel i c) = JStr (chunkId rel i).
Proof. unfold item_chunk_id, get, make_item. by rewrite lookup_insert_eq. Qed.

Lemma make_item_chunk rel i c : get (make_item rel i c) "chunk" = JStr c.
Proof.
  unfold get, make_item. by rewrite lookup_insert_ne, lookup_insert_eq by done.
Qed.

Lemma make_item_doc rel i c : get (make_item rel i c) "doc" = JStr rel.
Proof.
  unfold get, make_item. by rewrite !lookup_insert_ne, lookup_singleton_eq by done.
Qed.

Lemma make_item_text rel i c :
  FaissIndexer.chunk_text (make_item rel i c) = Ok c ∧
  FaissIndexer.item_text (make_item rel i c) = c ∧
  FaissIndexer.nonblank (make_item rel i c) = negb (FaissIndexer.blank c).
Proof.
  unfold FaissIndexer.item_text, FaissIndexer.nonblank, FaissIndexer.chunk_text.
  by rewrite make_item_chunk.
Qed.

Lemma cli_push_chunks_spec rel chunks :
  ∀ i metadata chunkIds pushed,
    ids_tracked metadata chunkIds →
    cli_push_chunks rel i chunks metadata chunkIds = Ok pushed →
    ids_tracked pushed.1 pushed.2 ∧
    pushed.1 = (metadata ++ imap (λ j c, make_item rel (i + j) c) chunks)%list.
Proof.
  induction chunks as [|c chunks IH];
    intros i metadata chunkIds [metadata' chunkIds'] Hinv; simpl.
  - intros [= <- <-]. by rewrite app_nil_r.
  - case_bool_decide as Hseen; [done|]. intros Hrun.
    apply IH in Hrun as [Hinv' Heq]; simpl in *; [subst metadata'|].
    + split; [done|]. rewrite <- app_assoc. simpl. rewrite Nat.add_0_r.
      do 2 f_equal. apply imap_ext. intros j x _. simpl. f_equal. lia.
    + destruct Hinv as [Hnodup Hids]. unfold ids_tracked.
      rewrite map_app. simpl. rewrite make_item_chunk_id. split.
      * apply NoDup_app. split; [done|]. split; [|apply NoDup_singleton].
        intros x Hx ->%list_elem_of_singleton. by apply Hseen, Hids.
      * intros id. rewrite elem_of_union, elem_of_singleton, Hids.
        rewrite elem_of_app, list_elem_of_singleton. naive_solver.
Qed.
End MetadataFacts.

Section CliFacts.
Import FS JS IndexBuilder.

Variable F : Type.
Variable embed : string → option (list F).
Variable normalize : list F → list F.
Variable langchain : Splitter.SplitterCall → string → Result (list string).
Variable md5 : string → string.

(** The metadata that [runBuild] assembles has no repeated chunk
    identifier, and holds an item for every chunk of every file it read. *)
Lemma cli_metadata_spec o files :
  ∀ metadata chunkIds metadata',
    ids_tracked metadata chunkIds →
    cli_metadata langchain o files metadata chunkIds = Ok metadata' →
    NoDup (map item_chunk_id metadata') ∧
    (∀ item, item ∈ metadata → item ∈ metadata') ∧
    ∀ f content chunks,
      f ∈ files → readFileContent f = Some content → content ≠ "" →
      Splitter.splitTextByFileType langchain content
        (Path.basename (fr_path f)) (splitter_options o) = Ok chunks →
      ∀ i c, chunks !! i = Some c →
             make_item (Path.relative (fr_path f)) i c ∈ metadata'.
Proof.
  induction files as [|f files IH]; intros metadata chunkIds metadata' Hinv; simpl.
  - intros [= <-]. split; [apply Hinv|]. split; [done|].
    by intros ??? ?%elem_of_nil.
  - destruct (readFileContent f) as [[|a content]|] eqn:Hread.
    + intros Hrun. destruct (IH _ _ _ Hinv Hrun) as (Hnodup & Hsub & Hfiles).
      repeat split; [done..|].
      intros f' content' chunks [->|Hf']%elem_of_cons; [congruence|].
      by apply Hfiles.
    + destruct (Splitter.splitTextByFileType _ _ _ _) as [chunks0|] eqn:Hsplit;
        simpl; [|done].
      destruct (cli_push_chunks _ _ _ _ _) as [pushed|] eqn:Hpush; simpl; [|done].
      apply cli_push_chunks_spec in Hpush as [Hinv' Hpushed]; [|done].
      intros Hrun. destruct (IH _ _ _ Hinv' Hrun) as (Hnodup & Hsub & Hfiles).
      repeat split; [done| |].
      * intros item Hitem. apply Hsub. rewrite Hpushed. apply elem_of_app. auto.
      * intros f' content' chunks [->|Hf']%elem_of_cons; [|by apply Hfiles].
        rewrite Hread. intros [= <-] _. rewrite Hsplit. intros [= <-] i c Hc.
        apply Hsub. rewrite Hpushed. apply elem_of_app. right.
        apply list_elem_of_lookup. exists i.
        by rewrite list_lookup_imap, Hc.
    + intros Hrun. destruct (IH _ _ _ Hinv Hrun) as (Hnodup & Hsub & Hfiles).
      repeat split; [done..|].
      intros f' content' chunks [->|Hf']%elem_of_cons; [congruence|].
      by apply Hfiles.
Qed.

Lemma ids_tracked_empty : ids_tracked [] ∅.
Proof. split; [constructor|]. intros id. simpl. set_solver. Qed.

(** The three steps of a completed [runBuild]. *)
Lemma runBuild_spec entries o reply out :
  runBuild F embed normalize langchain md5 (Some entries) o reply = Ok out →
  DocCache.generateDocCache md5 (Some entries)
    {| DocCache.extensions := Some (extensions o);
       DocCache.recursive := recursive o |} = Ok (rb_cache F out) ∧
  cli_metadata langchain o (getFiles entries (extensions o) (recursive o)) [] ∅
    = Ok (rb_metadata F out) ∧
  FaissIndexer.build F embed normalize (FaissIndexer.new_indexer F (model o))
    (Embedder.healthCheck (model o) reply) (Some (rb_metadata F out))
    = Ok (rb_build F out).
Proof.
  unfold runBuild.
  destruct (DocCache.generateDocCache _ _ _) as [cache|] eqn:Hcache; simpl; [|done].
  destruct (cli_metadata _ _ _ _ _) as [[|item metadata]|] eqn:Hmeta; simpl;
    [done| |done].
  destruct (FaissIndexer.build _ _ _ _ _ _) as [built|] eqn:Hbuild; simpl; [|done].
  by intros [= <-].
Qed.

(** [runBuild] never hands a sequence with a repeated identifier to the
    index build. *)
Lemma runBuild_no_duplicates entries o reply out :
  runBuild F embed normalize langchain md5 (Some entries) o reply = Ok out →
  NoDup (map item_chunk_id (rb_metadata F out)).
Proof.
  intros (_ & Hmeta & _)%runBuild_spec.
  by apply cli_metadata_spec in Hmeta as [? _]; [|apply ids_tracked_empty].
Qed.

(** A hidden file that the enumeration of [cli.js] returns and that
    [runBuild] can read is chunked and indexed, while the change cache of the
    same run has no key for it. *)
Lemma runBuild_hidden_file entries o reply out f content chunks :
  runBuild F embed normalize langchain md5 (Some entries) o reply = Ok out →
  f ∈ getFiles entries (extensions o) (recursive o) →
  hidden (Path.basename (fr_path f)) = true →
  readFileContent f = Some content → content ≠ "" →
  Splitter.splitTextByFileType langchain content
    (Path.basename (fr_path f)) (splitter_options o) = Ok chunks →
  rb_cache F out !! Path.basename (fr_path f) = None ∧
  ∀ i c, chunks !! i = Some c →
    make_item (Path.relative (fr_path f)) i c ∈ rb_metadata F out ∧
    (FaissIndexer.blank c = false →
     ∃ j entry v,
       FaissIndexer.b_metadata_file F (rb_build F out) !! j = Some entry ∧
       FaissIndexer.b_index_file F (rb_build F out) !! j = Some v ∧
       get entry "doc" = JStr (Path.relative (fr_path f)) ∧
       get entry "chunk_id" = JStr (chunkId (Path.relative (fr_path f)) i) ∧
       get entry "chunk" = JStr c).
Proof.
  intros (Hcache & Hmeta & Hbuild)%runBuild_spec Hf Hhidden Hread Hne Hsplit.
  split; [by eapply generateDocCache_no_hidden_key|].
  apply cli_metadata_spec in Hmeta as (_ & _ & Hfiles); [|apply ids_tracked_empty].
  intros i c Hc.
  assert (Hitem := Hfiles f content chunks Hf Hread Hne Hsplit i c Hc).
  split; [done|]. intros Hblank.
  set (item := make_item (Path.relative (fr_path f)) i c) in *.
  destruct (make_item_text (Path.relative (fr_path f)) i c) as (_ & Htext & Hnb).
  fold item in Htext, Hnb.
  assert (Hkept : item ∈ List.filter FaissIndexer.nonblank (rb_metadata F out)).
  { apply list_elem_of_In, filter_In. split; [by apply list_elem_of_In|].
    by rewrite Hnb, Hblank. }
  apply list_elem_of_lookup in Hkept as [j Hj].
  apply build_spec in Hbuild as (_ & _ & _ & _ & _ & Hvs & Hmd & Hfile & _).
  destruct (Forall2_lookup_l _ _ _ _ _ Hvs Hj) as (v & Hv & _).
  exists j, (FaissIndexer.stringify_entry
               (FaissIndexer.make_entry j item (FaissIndexer.item_text item))), v.
  split; [by rewrite Hfile, Hmd, list_lookup_fmap, list_lookup_imap, Hj|].
  split; [done|].
  rewrite !stringify_entry_get, make_entry_doc, make_entry_chunk_id, make_entry_chunk.
  rewrite Htext. unfold item. rewrite make_item_doc.
  split; [done|].
  split; [apply (make_item_chunk_id (Path.relative (fr_path f)) i c)|done].
Qed.
End CliFacts.

(** C5. The [build] of [index.js] has no duplicate check. On a directory that
    holds [a.txt] and [a.md] both files derive the chunk identifier [a_0]; the
    library build hands the sequence with the repeated identifier to the
    indexer and returns normally with two vectors, where [runBuild] of
    [cli.js] stops on the same input with the duplicate reported. *)
Theorem C5_library_build_accepts_duplicates :
  ∃ out,
    IndexBuilder.build Z Fixtures.embed Fixtures.normalize Fixtures.langchain
      Fixtures.twin_names IndexBuilder.default_options Fixtures.tags = Ok out ∧
    FaissIndexer.b_vectors Z out = 2%nat ∧
    map (λ entry, JS.get entry "chunk_id") (FaissIndexer.b_metadata_file Z out)
    = [JS.JStr "a_0"; JS.JStr "a_0"] ∧
    IndexBuilder.runBuild Z Fixtures.embed Fixtures.normalize Fixtures.langchain
      Fixtures.md5 (Some Fixtures.twin_names) IndexBuilder.default_options
      Fixtures.tags = Err (DuplicateChunkId "a_0").
Proof.
  eexists. split; [vm_compute; reflexivity|].
  split; [reflexivity|]. split; vm_compute; reflexivity.
Qed.

(** C10, as stated, fails for the [removed] set: with the hidden file
    [.env.txt] present in the scanned directory and a previous cache that has
    the key [.env.txt], the scan does not see the file and [detectChanges]
    reports [.env.txt] as removed. *)
Lemma C10_counterexample :
  let dir := [FS.EFile ".env.txt" "secret"] in
  let changes :=
    DocCache.detectChanges Fixtures.md5 dir {[ ".env.txt" := "digest-of-secret" ]}
      {| DocCache.extensions := Some [".txt"]; DocCache.recursive := false |} in
  FS.file_at dir [".env.txt"] "secret" ∧
  FS.hidden ".env.txt" = true ∧
  ".env.txt" ∈ DocCache.removed changes.
Proof.
  repeat split.
  - constructor. apply list_elem_of_In. simpl. auto.
  - vm_compute. apply list_elem_of_In. simpl. auto.
Qed.

(** C10, amended. The enumeration of [docCache.js] skips every entry whose
    name begins with a dot, so (1) no enumerated path has a hidden segment,
    (2) a generated cache has no hidden key, and (3) a hidden name is never
    reported as added, modified or unchanged; it is reported as removed
    exactly when the previous cache has it as a key. The enumeration of
    [index.js] and [cli.js] has no such test: (4) it returns every regular
    file with a wanted extension, and (5) in a completed [runBuild] a hidden
    file that was enumerated and read is chunked and indexed while the cache
    written by the same run has no key for it. *)
Theorem C10_hidden_files (F : Type) (embed : string → option (list F))
    (normalize : list F → list F)
    (langchain : Splitter.SplitterCall → string → Result (list string))
    (md5 : string → string) :
  (∀ dir opts f,
     f ∈ DocCache.getFiles dir opts →
     Forall (λ seg, FS.hidden seg = false) (FS.fr_path f)) ∧
  (∀ dir opts cache key,
     DocCache.generateDocCache md5 (Some dir) opts = Ok cache →
     FS.hidden key = true → cache !! key = None) ∧
  (∀ dir existingCache opts key,
     FS.hidden key = true →
     let changes := DocCache.detectChanges md5 dir existingCache opts in
     (key ∉ DocCache.added changes) ∧ (key ∉ DocCache.modified changes) ∧
     (key ∉ DocCache.unchanged changes) ∧
     (key ∈ DocCache.removed changes ↔ key ∈ dom existingCache)) ∧
  (∀ exts recursive entries p content,
     FS.file_at entries p content →
     recursive = true ∨ length p = 1%nat →
     JS.arr_includes exts (Path.toLowerCase (Path.extname (Path.basename p))) = true →
     {| FS.fr_path := p; FS.fr_content := content |}
     ∈ IndexBuilder.getFiles entries exts recursive) ∧
  (∀ entries o reply out f content chunks,
     IndexBuilder.runBuild F embed normalize langchain md5 (Some entries) o reply
       = Ok out →
     f ∈ IndexBuilder.getFiles entries (IndexBuilder.extensions o)
           (IndexBuilder.recursive o) →
     FS.hidden (Path.basename (FS.fr_path f)) = true →
     IndexBuilder.readFileContent f = Some content → content ≠ "" →
     Splitter.splitTextByFileType langchain content
       (Path.basename (FS.fr_path f)) (IndexBuilder.splitter_options o) = Ok chunks →
     IndexBuilder.rb_cache F out !! Path.basename (FS.fr_path f) = None ∧
     ∀ i c, chunks !! i = Some c →
       IndexBuilder.make_item (Path.relative (FS.fr_path f)) i c
         ∈ IndexBuilder.rb_metadata F out ∧
       (FaissIndexer.blank c = false →
        ∃ j entry v,
          FaissIndexer.b_metadata_file F (IndexBuilder.rb_build F out) !! j
            = Some entry ∧
          FaissIndexer.b_index_file F (IndexBuilder.rb_build F out) !! j = Some v ∧
          JS.get entry "doc" = JS.JStr (Path.relative (FS.fr_path f)) ∧
          JS.get entry "chunk_id"
            = JS.JStr (IndexBuilder.chunkId (Path.relative (FS.fr_path f)) i) ∧
          JS.get entry "chunk" = JS.JStr c)).
Proof.
  split; [|split; [|split; [|split]]].
  - intros dir opts f Hf. by apply doc_getFiles_visible in Hf as [_ ?].
  - intros dir opts cache key. apply generateDocCache_no_hidden_key.
  - intros dir existingCache opts key Hkey changes.
    assert (Hscan : ∀ f, f ∈ DocCache.getFiles dir opts →
                         Path.basename (FS.fr_path f) ≠ key).
    { intros f Hf%doc_getFiles_basename_visible Heq. rewrite Heq in Hf. congruence. }
    unfold changes.
    rewrite detect_added, detect_modified, detect_unchanged, detect_removed.
    split; [|split; [|split; [|split]]].
    + intros (f & Hf & Heq & _). by apply (Hscan f).
    + intros (f & Hf & Heq & _). by apply (Hscan f).
    + intros (f & Hf & Heq & _). by apply (Hscan f).
    + by intros [? _].
    + intros Hdom. split; [done|].
      intros (f & Heq & Hf)%list_elem_of_fmap. by apply (Hscan f).
  - apply builder_getFiles_complete.
  - apply runBuild_hidden_file.
Qed.

(** The default [build] command on a directory with [.notes.md] and [a.txt]:
    the hidden file is enumerated and read, and the cache written by the run
    has no key for it. *)
Lemma C10_hidden_files_witness :
  ∃ out,
    IndexBuilder.runBuild Z Fixtures.embed Fixtures.normalize Fixtures.langchain
      Fixtures.md5 (Some Fixtures.with_hidden) IndexBuilder.cli_default_options
      Fixtures.tags = Ok out ∧
    IndexBuilder.rb_cache Z out !! ".notes.md" = None.
Proof.
  eexists. split; [vm_compute; reflexivity|].
  refine (proj1 (proj2 (proj2 (proj2 (proj2
    (C10_hidden_files Z Fixtures.embed Fixtures.normalize Fixtures.langchain
       Fixtures.md5)))) Fixtures.with_hidden IndexBuilder.cli_default_options
       Fixtures.tags _
       {| FS.fr_path := [".notes.md"]; FS.fr_content := "hidden text" |}
       "hidden text" ["hidden text"] _ _ _ _ _ _)).
  - vm_compute. reflexivity.
  - apply list_elem_of_In. simpl. auto.
  - reflexivity.
  - reflexivity.
  - discriminate.
  - reflexivity.
Defined.

(* ===================================================================== *)
(** * Further properties of the chunker                                   *)
(* ===================================================================== *)

Section SliceFacts.

Lemma substring_full s : substring 0 (String.length s) s = s.
Proof. induction s as [|c s IH]; simpl; [done|]. by rewrite IH. Qed.

Lemma length_substring s : ∀ n m,
  String.length (substring n m s) = Nat.min m (String.length s - n).
Proof.
  induction s as [|c s IH]; intros [|n] [|m]; simpl; try done;
    rewrite IH; lia.
Qed.

(** [slice] between two positions inside the string, in order. *)
Lemma slice_length s a b :
  0 ≤ a → a ≤ b → b ≤ Z.of_nat (String.length s) →
  String.length (JS.slice s a b) = Z.to_nat (b - a).
Proof.
  intros Ha Hab Hb. unfold JS.slice.
  destruct (Z.ltb_spec a 0); [lia|]. destruct (Z.ltb_spec b 0); [lia|].
  rewrite length_substring. lia.
Qed.

Lemma slice_get s a b p :
  0 ≤ a → a ≤ b → b ≤ Z.of_nat (String.length s) →
  (p < Z.to_nat (b - a))%nat →
  String.get p (JS.slice s a b) = String.get (p + Z.to_nat a) s.
Proof.
  intros Ha Hab Hb Hp. unfold JS.slice.
  destruct (Z.ltb_spec a 0); [lia|]. destruct (Z.ltb_spec b 0); [lia|].
  replace (Z.min a (Z.of_nat (String.length s))) with a by lia.
  replace (Z.min b (Z.of_nat (String.length s))) with b by lia.
  apply substring_correct1. lia.
Qed.


End SliceFacts.

Section ChunkShape.
Import TextSplitter.

Variable text : string.
Variables chunkSize overlap : Z.

Let len := Z.of_nat (String.length text).
Let stride := chunkSize - overlap.

(** The runs of the loop with a sound configuration: the windows pushed, and
    where they start and end. *)
Lemma chunk_loop_shape fuel start chunks res :
  0 ≤ overlap → overlap < chunkSize → 0 ≤ start →
  chunk_loop fuel text chunkSize overlap start chunks = Some res →
  ∃ n,
    res = (chunks ++
           map (λ j, JS.slice text (start + Z.of_nat j * stride)
                       (Z.min (start + Z.of_nat j * stride + chunkSize) len))
               (seq 0 n))%list ∧
    (∀ j, (j < n)%nat → start + Z.of_nat j * stride < len) ∧
    (∀ j, (S j < n)%nat → start + Z.of_nat j * stride + chunkSize < len) ∧
    ((0 < n)%nat → len ≤ start + (Z.of_nat n - 1) * stride + chunkSize) ∧
    (n = 0%nat → len ≤ start).
Proof.
  intros Hov Hlt. revert start chunks.
  induction fuel as [|fuel IH]; intros start chunks Hstart; [done|].
  simpl. fold len.
  destruct (Z.ltb_spec start len) as [Hin|Hout].
  - destruct (Z.geb_spec (Z.min (start + chunkSize) len - overlap + overlap) len)
      as [Hbreak|Hgo].
    + intros [= <-]. exists 1%nat. simpl. rewrite Z.add_0_r.
      split; [done|]. repeat split; intros; try lia.
      replace j with 0%nat by lia. lia.
    + assert (Hend : Z.min (start + chunkSize) len = start + chunkSize) by lia.
      rewrite Hend. intros Hrun.
      apply IH in Hrun as (n & -> & Hstarts & Hfull & Hlast & Hnone); [|lia].
      assert (Hn : (0 < n)%nat).
      { destruct n; [|lia]. specialize (Hnone eq_refl). lia. }
      exists (S n). split; [|repeat split].
      * rewrite <- app_assoc. f_equal. simpl. rewrite Z.add_0_r, Hend. f_equal.
        rewrite <- seq_shift, map_map. apply map_ext. intros j.
        replace (start + chunkSize - overlap + Z.of_nat j * stride)
          with (start + Z.of_nat (S j) * stride) by (unfold stride; lia).
        done.
      * intros [|j] Hj; [lia|]. specialize (Hstarts j). unfold stride in *. lia.
      * intros [|j] Hj; [lia|]. specialize (Hfull j). unfold stride in *. lia.
      * intros _. specialize (Hlast Hn). unfold stride in *. lia.
      * lia.
  - intros [= <-]. exists 0%nat. simpl. rewrite app_nil_r.
    split; [done|]. repeat split; intros; lia.
Qed.

(** The same for a call of [chunkTextSync]: the result is the list of the
    first [n] windows, all but the last of full size, the last reaching the
    end of the text. *)
Lemma chunkTextSync_shape fuel chunks :
  0 ≤ overlap → overlap < chunkSize →
  chunkTextSync_fuel fuel text chunkSize overlap = Some chunks →
  ∃ n,
    chunks = map (window text chunkSize overlap) (seq 0 n) ∧
    (∀ j, (j < n)%nat → Z.of_nat j * stride < len) ∧
    (∀ j, (S j < n)%nat → Z.of_nat j * stride + chunkSize < len) ∧
    ((0 < n)%nat → len ≤ (Z.of_nat n - 1) * stride + chunkSize) ∧
    (n = 0%nat → len ≤ 0).
Proof.
  intros Hov Hlt Hrun.
  apply chunk_loop_shape in Hrun as (n & -> & H1 & H2 & H3 & H4); try lia.
  exists n. simpl. split; [done|]. repeat split; intros.
  - specialize (H1 j). lia.
  - specialize (H2 j). lia.
  - lia.
  - lia.
Qed.

End ChunkShape.

Lemma string_get_lt s p :
  (p < String.length s)%nat → ∃ c, String.get p s = Some c.
Proof.
  revert p. induction s as [|c s IH]; intros [|p] Hp; simpl in *; try lia.
  - by eexists.
  - apply IH. lia.
Qed.

(** The window [j] of a returned list, seen from the text. *)
Lemma window_inside text chunkSize overlap j :
  0 ≤ overlap → overlap < chunkSize →
  Z.of_nat j * (chunkSize - overlap) < Z.of_nat (String.length text) →
  let start := Z.of_nat j * (chunkSize - overlap) in
  let stop := Z.min (start + chunkSize) (Z.of_nat (String.length text)) in
  String.length (TextSplitter.window text chunkSize overlap j) = Z.to_nat (stop - start) ∧
  ∀ k, (k < Z.to_nat (stop - start))%nat →
       String.get k (TextSplitter.window text chunkSize overlap j)
       = String.get (k + Z.to_nat start) text.
Proof.
  intros Hov Hlt Hin start stop. unfold TextSplitter.window. fold start. fold stop.
  assert (0 ≤ start) by (unfold start; nia).
  split; [apply slice_length|intros k Hk; apply slice_get]; unfold stop; lia.
Qed.



(** X2. With an overlap that is not negative and below the chunk size, no
    returned chunk is empty or longer than the chunk size, and every chunk but
    the last has exactly the chunk size. *)
Theorem X2_chunk_sizes (text : string) (chunkSize overlap : Z) (fuel : nat)
    (chunks : list string) :
  0 ≤ overlap → overlap < chunkSize →
  TextSplitter.chunkTextSync_fuel fuel text chunkSize overlap = Some chunks →
  Forall (λ c, (1 ≤ String.length c)%nat ∧ Z.of_nat (String.length c) ≤ chunkSize)
         chunks ∧
  ∀ j c, chunks !! j = Some c → (S j < length chunks)%nat →
         Z.of_nat (String.length c) = chunkSize.
Proof.
  intros Hov Hlt Hrun.
  apply chunkTextSync_shape in Hrun as (n & -> & Hstart & Hfull & _ & _); try done.
  rewrite length_map, length_seq. split.
  - apply Forall_map, Forall_seq. intros j Hj.
    destruct (window_inside text chunkSize overlap j Hov Hlt) as [-> _];
      [apply Hstart; lia|].
    specialize (Hstart j). lia.
  - intros j c Hc Hj. rewrite list_lookup_fmap in Hc.
    rewrite lookup_seq_lt in Hc by lia. injection Hc as <-.
    destruct (window_inside text chunkSize overlap j Hov Hlt) as [-> _];
      [apply Hstart; lia|].
    specialize (Hfull j Hj). lia.
Qed.

Lemma X2_chunk_sizes_witness :
  TextSplitter.chunkTextSync_fuel 21 "0123456789ABCDEFGHIJ" 10 3
  = Some ["0123456789"; "789ABCDEFG"; "EFGHIJ"] ∧
  Z.of_nat (String.length "789ABCDEFG") = 10.
Proof.
  split; [reflexivity|].
  apply (proj2 (X2_chunk_sizes "0123456789ABCDEFGHIJ" 10 3 21
                  ["0123456789"; "789ABCDEFG"; "EFGHIJ"]
                  ltac:(lia) ltac:(lia) eq_refl) 1%nat "789ABCDEFG");
    [reflexivity|simpl; lia].
Defined.

(** X3. With an overlap that is not negative and below the chunk size, each
    chunk after the first begins with the last [overlap] characters of the
    chunk before it. *)
Theorem X3_chunk_overlap (text : string) (chunkSize overlap : Z) (fuel : nat)
    (chunks : list string) (j : nat) (a b : string) (i : nat) :
  0 ≤ overlap → overlap < chunkSize →
  TextSplitter.chunkTextSync_fuel fuel text chunkSize overlap = Some chunks →
  chunks !! j = Some a → chunks !! S j = Some b →
  Z.of_nat i < overlap →
  ∃ ch, String.get (Z.to_nat (chunkSize - overlap) + i) a = Some ch ∧
        String.get i b = Some ch.
Proof.
  intros Hov Hlt Hrun Ha Hb Hi.
  apply chunkTextSync_shape in Hrun as (n & -> & Hstart & Hfull & _ & _); try done.
  rewrite list_lookup_fmap in Ha, Hb.
  assert (Hj : (S j < n)%nat).
  { destruct (decide (S j < n)%nat); [done|].
    rewrite lookup_seq_ge in Hb by lia. done. }
  rewrite lookup_seq_lt in Ha, Hb by lia. simpl in Ha, Hb.
  injection Ha as <-. injection Hb as <-.
  assert (Hsj := Hstart (S j) Hj). assert (Hfj := Hfull j Hj).
  assert (Hj0 := Hstart j ltac:(lia)).
  destruct (window_inside text chunkSize overlap j Hov Hlt Hj0) as [_ Hga].
  destruct (window_inside text chunkSize overlap (S j) Hov Hlt Hsj) as [_ Hgb].
  rewrite Hga, Hgb by lia.
  replace (Z.to_nat (chunkSize - overlap) + i + Z.to_nat (Z.of_nat j * (chunkSize - overlap)))%nat
    with (i + Z.to_nat (Z.of_nat (S j) * (chunkSize - overlap)))%nat by nia.
  destruct (string_get_lt text (i + Z.to_nat (Z.of_nat (S j) * (chunkSize - overlap)))) as [ch Hch];
    [nia|].
  by exists ch.
Qed.

Lemma X3_chunk_overlap_witness :
  ∃ ch, String.get (Z.to_nat (10 - 3) + 0) "0123456789" = Some ch ∧
        String.get 0 "789ABCDEFG" = Some ch.
Proof.
  apply (X3_chunk_overlap "0123456789ABCDEFGHIJ" 10 3 21
           ["0123456789"; "789ABCDEFG"; "EFGHIJ"] 0 "0123456789" "789ABCDEFG" 0);
    try lia; reflexivity.
Defined.

(** X4. With an overlap that is not negative and below the chunk size, the
    chunks lose nothing: chunk [j] is the piece of the text that starts [j]
    strides in, and every position of the text lies in some chunk. *)
Theorem X4_chunk_coverage (text : string) (chunkSize overlap : Z) (fuel : nat)
    (chunks : list string) :
  0 ≤ overlap → overlap < chunkSize →
  TextSplitter.chunkTextSync_fuel fuel text chunkSize overlap = Some chunks →
  let stride := Z.to_nat (chunkSize - overlap) in
  (∀ j c k, chunks !! j = Some c → (k < String.length c)%nat →
            String.get k c = String.get (j * stride + k) text) ∧
  (∀ p, (p < String.length text)%nat →
        ∃ j c, chunks !! j = Some c ∧
               (j * stride ≤ p < j * stride + String.length c)%nat).
Proof.
  intros Hov Hlt Hrun stride.
  apply chunkTextSync_shape in Hrun as (n & -> & Hstart & Hfull & Hlast & Hnone);
    try done.
  assert (Hwin : ∀ j, (j < n)%nat →
            String.length (TextSplitter.window text chunkSize overlap j)
            = Z.to_nat (Z.min (Z.of_nat j * (chunkSize - overlap) + chunkSize)
                              (Z.of_nat (String.length text))
                        - Z.of_nat j * (chunkSize - overlap)) ∧
            ∀ k, (k < String.length (TextSplitter.window text chunkSize overlap j))%nat →
                 String.get k (TextSplitter.window text chunkSize overlap j)
                 = String.get (j * stride + k) text).
  { intros j Hj.
    destruct (window_inside text chunkSize overlap j Hov Hlt (Hstart j Hj))
      as [Hlen Hget].
    split; [done|]. intros k Hk. rewrite Hget by lia. f_equal. unfold stride. nia. }
  split.
  - intros j c k Hc Hk. rewrite list_lookup_fmap in Hc.
    destruct (decide (j < n)%nat) as [Hj|Hj];
      [|by rewrite lookup_seq_ge in Hc by lia].
    rewrite lookup_seq_lt in Hc by lia. injection Hc as <-.
    by apply Hwin.
  - intros p Hp.
    assert (Hn : (0 < n)%nat).
    { destruct n; [|lia]. specialize (Hnone eq_refl). lia. }
    assert (Hstride : (0 < stride)%nat) by (unfold stride; lia).
    set (j := Nat.min (p / stride) (n - 1)).
    assert (Hj : (j < n)%nat) by (unfold j; lia).
    assert (Hdiv := Nat.div_mod_eq p stride).
    assert (Hmod := Nat.mod_upper_bound p stride ltac:(lia)).
    exists j, (TextSplitter.window text chunkSize overlap j).
    split; [by rewrite list_lookup_fmap, lookup_seq_lt by lia|].
    destruct (Hwin j Hj) as [-> _].
    specialize (Hlast Hn). specialize (Hstart j Hj).
    destruct (decide (p / stride ≤ n - 1)%nat) as [Hle|Hgt].
    + replace j with (p / stride)%nat by (unfold j; lia).
      unfold stride in *. nia.
    + replace j with (n - 1)%nat in * by (unfold j; lia).
      unfold stride in *. nia.
Qed.

Lemma X4_chunk_coverage_witness :
  ∃ j c, ["0123456789"; "789ABCDEFG"; "EFGHIJ"] !! j = Some c ∧
         (j * Z.to_nat (10 - 3) ≤ 19 < j * Z.to_nat (10 - 3) + String.length c)%nat.
Proof.
  apply (proj2 (X4_chunk_coverage "0123456789ABCDEFGHIJ" 10 3 21
                  ["0123456789"; "789ABCDEFG"; "EFGHIJ"]
                  ltac:(lia) ltac:(lia) eq_refl)).
  simpl. lia.
Defined.


(* ===================================================================== *)
(** * Properties of the batch embedding and of the normalization          *)
(* ===================================================================== *)

Section BatchFacts.
Import EmbedderOps.

Variable F : Type.
Variable embed : string → option (list F).

(** The progress calls of the first [n] texts, counted from [i]. *)
Let calls (total i n : nat) : list (nat * nat) :=
  map (λ j, (S j, total)) (seq i n).

Lemma embedBatch_loop_ok total texts :
  ∀ i embeddings progress vs,
    Forall2 (λ text v, embed text = Some v) texts vs →
    embedBatch_loop F embed total i texts embeddings progress
    = ((progress ++ calls total i (length texts))%list, Ok (embeddings ++ vs)%list).
Proof.
  induction texts as [|text texts IH]; intros i embeddings progress vs Hvs.
  - apply Forall2_nil_inv_l in Hvs as ->. simpl. by rewrite !app_nil_r.
  - apply Forall2_cons_inv_l in Hvs as (v & vs' & Hv & Hvs & ->).
    simpl. rewrite Hv, (IH _ _ _ _ Hvs), <- !app_assoc. done.
Qed.

Lemma embedBatch_loop_inv total texts :
  ∀ i embeddings progress progress' outcome,
    embedBatch_loop F embed total i texts embeddings progress = (progress', outcome) →
    match outcome with
    | Ok result =>
      ∃ vs, Forall2 (λ text v, embed text = Some v) texts vs ∧
            result = (embeddings ++ vs)%list ∧
            progress' = (progress ++ calls total i (length texts))%list
    | Err e =>
      e = EmbedError ∧
      ∃ j text, texts !! j = Some text ∧ embed text = None ∧
                (∀ k t, (k < j)%nat → texts !! k = Some t → is_Some (embed t)) ∧
                progress' = (progress ++ calls total i j)%list
    end.
Proof.
  induction texts as [|text texts IH]; intros i embeddings progress progress' outcome;
    simpl.
  - intros [= <- <-]. exists []. by rewrite !app_nil_r.
  - destruct (embed text) as [v|] eqn:Hv.
    + intros Hrun. apply IH in Hrun. destruct outcome as [result|e].
      * destruct Hrun as (vs & Hvs & -> & ->). exists (v :: vs).
        rewrite <- !app_assoc. by repeat split; [constructor|..].
      * destruct Hrun as (-> & j & t & Ht & Hnone & Hbefore & ->).
        split; [done|]. exists (S j), t. rewrite <- app_assoc.
        split; [done|]. split; [done|]. split; [|done].
        intros [|k] t' Hk Ht'; simpl in Ht'; [by injection Ht' as <-; eexists|].
        apply (Hbefore k); [lia|done].
    + intros [= <- <-]. split; [done|]. exists 0%nat, text. simpl.
      rewrite app_nil_r. repeat split; [done..|]. intros; lia.
Qed.
End BatchFacts.

(** X6. [embedBatch] resolves exactly when every text is embedded: the
    result then holds one vector per text, in the order of the texts, and the
    progress callback was called after each text with the counts
    [(1, n)], [(2, n)], ..., [(n, n)]. *)
Theorem X6_embedBatch_success (F : Type) (embed : string → option (list F))
    (texts : list string) (progress : list (nat * nat)) (vs : list (list F)) :
  EmbedderOps.embedBatch F embed texts = (progress, Ok vs) ↔
  Forall2 (λ text v, embed text = Some v) texts vs ∧
  progress = map (λ j, (S j, length texts)) (seq 0 (length texts)).
Proof.
  unfold EmbedderOps.embedBatch. split.
  - intros Hrun. apply embedBatch_loop_inv in Hrun as (vs' & Hvs & -> & ->). done.
  - intros [Hvs ->]. by rewrite (embedBatch_loop_ok F embed _ _ _ _ _ _ Hvs).
Qed.

(** X7. [embedBatch] is rejected exactly when some text is: the batch stops
    at the first text that fails, returns no partial result, and has called
    the progress callback once for each text before it and never after. *)
Theorem X7_embedBatch_failure (F : Type) (embed : string → option (list F))
    (texts : list string) (progress : list (nat * nat)) (e : Error) :
  EmbedderOps.embedBatch F embed texts = (progress, Err e) ↔
  e = EmbedError ∧
  ∃ j text,
    texts !! j = Some text ∧ embed text = None ∧
    (∀ k t, (k < j)%nat → texts !! k = Some t → is_Some (embed t)) ∧
    progress = map (λ i, (S i, length texts)) (seq 0 j).
Proof.
  unfold EmbedderOps.embedBatch. split.
  - intros Hrun. apply embedBatch_loop_inv in Hrun. done.
  - intros (-> & j & text & Htext & Hnone & Hbefore & ->).
    destruct (EmbedderOps.embedBatch_loop F embed (length texts) 0 texts [] [])
      as [progress' outcome] eqn:Hrun.
    apply embedBatch_loop_inv in Hrun. destruct outcome as [result|e].
    + destruct Hrun as (vs & Hvs & _).
      destruct (Forall2_lookup_l _ _ _ _ _ Hvs Htext) as (v & _ & Hv). congruence.
    + destruct Hrun as (-> & j' & text' & Htext' & Hnone' & Hbefore' & ->).
      simpl. do 3 f_equal.
      destruct (Nat.lt_trichotomy j j') as [Hlt|[->|Hgt]]; [|done|].
      * destruct (Hbefore' j text Hlt Htext). congruence.
      * destruct (Hbefore j' text' Hgt Htext'). congruence.
Qed.

Section NormalizeFacts.
Import EmbedderOps.

Variables F32 F64 : Type.
Variable widen : F32 → F64.
Variable round : F64 → F32.
Variable fzero : F64.
Variables fadd fmul fdiv : F64 → F64 → F64.
Variable fsqrt : F64 → F64.
Variable is_zero : F64 → bool.

Lemma norm_of_zero_vector vec :
  fmul fzero fzero = fzero → fadd fzero fzero = fzero →
  Forall (λ x, widen x = fzero) vec →
  norm_of F32 F64 widen fzero fadd fmul fsqrt vec = fsqrt fzero.
Proof.
  intros Hmul Hadd Hvec. unfold norm_of. f_equal.
  induction Hvec as [|x vec Hx _ IH]; simpl; [done|].
  by rewrite Hx, Hmul, Hadd.
Qed.
End NormalizeFacts.

(** X8. [normalize] never changes the dimension of a vector, whatever the
    arithmetic does; and with the sum of squares of zeros being zero, a vector
    of zeros (the empty vector included) has norm zero and is returned as it
    is, not divided. *)
Theorem X8_normalize_dimension (F32 F64 : Type) (widen : F32 → F64)
    (round : F64 → F32) (fzero : F64) (fadd fmul fdiv : F64 → F64 → F64)
    (fsqrt : F64 → F64) (is_zero : F64 → bool) (vec : list F32) :
  length (EmbedderOps.normalize F32 F64 widen round fzero fadd fmul fdiv fsqrt
            is_zero vec) = length vec ∧
  (fmul fzero fzero = fzero → fadd fzero fzero = fzero →
   is_zero (fsqrt fzero) = true →
   Forall (λ x, widen x = fzero) vec →
   EmbedderOps.normalize F32 F64 widen round fzero fadd fmul fdiv fsqrt is_zero vec
   = vec).
Proof.
  unfold EmbedderOps.normalize. split.
  - destruct (is_zero _); [done|]. by rewrite length_map.
  - intros Hmul Hadd Hzero Hvec.
    by rewrite (norm_of_zero_vector F32 F64 widen fzero fadd fmul fsqrt vec), Hzero.
Qed.

(** Integers standing for floats: the zero vector of dimension 3. *)
Lemma X8_normalize_dimension_witness :
  EmbedderOps.normalize Z Z (λ x, x) (λ x, x) 0 Z.add Z.mul Z.div Z.sqrt
    (Z.eqb 0) [0; 0; 0] = [0; 0; 0].
Proof.
  apply (proj2 (X8_normalize_dimension Z Z (λ x, x) (λ x, x) 0 Z.add Z.mul Z.div
                  Z.sqrt (Z.eqb 0) [0; 0; 0]));
    try reflexivity. repeat constructor.
Defined.

(* ===================================================================== *)
(** * Further properties of the indexer                                   *)
(* ===================================================================== *)

Section BuildMore.
Import JS FaissIndexer.

Variable F : Type.
Variable embed : string → option (list F).
Variable normalize : list F → list F.





End BuildMore.




(** X11. When no input item has an [id] property of its own, the [id] of
    every entry written by a successful [build] is its position in the
    metadata file, counted from 0. *)
Theorem X11_ids_are_ordinals (F : Type) (embed : string → option (list F))
    (normalize : list F → list F) (self : FaissIndexer.Indexer F)
    (health : Embedder.Health) (items : list (gmap string JS.JValue))
    (out : FaissIndexer.BuildOutcome F) :
  FaissIndexer.build F embed normalize self health (Some items) = Ok out →
  Forall (λ item, item !! "id" = None) items →
  ∀ i entry,
    FaissIndexer.b_metadata_file F out !! i = Some entry →
    JS.get entry "id" = JS.JNum (Z.of_nat i).
Proof.
  intros Hbuild Hids i entry Hentry.
  destruct (build_aligned F embed normalize self health items out Hbuild)
    as [_ Hentries].
  apply build_spec in Hbuild as (_ & _ & _ & _ & _ & _ & _ & Hfile & _).
  rewrite Hfile, list_lookup_fmap in Hentry.
  destruct (FaissIndexer.metadata F (FaissIndexer.b_indexer F out) !! i)
    as [e|] eqn:He; [|done].
  injection Hentry as <-.
  destruct (Hentries i e He) as (item & v & Hitem & _ & _ & Hid & _).
  rewrite stringify_entry_get, Hid.
  assert (Hin : item ∈ items).
  { apply list_elem_of_lookup_2 in Hitem.
    apply list_elem_of_In, filter_In in Hitem as [Hin _]. by apply list_elem_of_In. }
  rewrite List.Forall_forall in Hids.
  by rewrite (Hids item (proj1 (list_elem_of_In _ _) Hin)).
Qed.

Lemma X11_ids_are_ordinals_witness :
  ∃ out,
    FaissIndexer.build Z Fixtures.embed Fixtures.normalize
      Fixtures.indexer Fixtures.healthy
      (Some [IndexBuilder.make_item "a.txt" 0 "   ";
             IndexBuilder.make_item "b.txt" 0 "Valid text"]) = Ok out ∧
    ∀ i entry,
      FaissIndexer.b_metadata_file Z out !! i = Some entry →
      JS.get entry "id" = JS.JNum (Z.of_nat i).
Proof.
  eexists. split; [vm_compute; reflexivity|].
  refine (X11_ids_are_ordinals Z Fixtures.embed Fixtures.normalize
            Fixtures.indexer Fixtures.healthy
            [IndexBuilder.make_item "a.txt" 0 "   ";
             IndexBuilder.make_item "b.txt" 0 "Valid text"] _ _ _).
  - vm_compute. reflexivity.
  - repeat constructor.
Defined.

Lemma make_entry_extra n item chunk k :
  k ∉ ["id"; "doc"; "chunk_id"; "chunk"] →
  JS.get (FaissIndexer.make_entry n item chunk) k = JS.get item k.
Proof.
  intros Hk. unfold JS.get, FaissIndexer.make_entry.
  rewrite lookup_union, extra_fields_lookup.
  rewrite bool_decide_eq_false_2 by set_solver.
  rewrite !lookup_insert_ne, lookup_singleton_ne by set_solver.
  by destruct (item !! k).
Qed.

(** X12. A successful [build] carries the input through: entry [i] of the
    metadata file comes from the [i]-th item that is not blank, with the
    item's document path and chunk identifier, and with every other property
    of the item under its own name and value. *)
Theorem X12_entry_keeps_item_fields (F : Type) (embed : string → option (list F))
    (normalize : list F → list F) (self : FaissIndexer.Indexer F)
    (health : Embedder.Health) (items : list (gmap string JS.JValue))
    (out : FaissIndexer.BuildOutcome F) :
  FaissIndexer.build F embed normalize self health (Some items) = Ok out →
  ∀ i entry,
    FaissIndexer.b_metadata_file F out !! i = Some entry →
    ∃ item,
      List.filter FaissIndexer.nonblank items !! i = Some item ∧
      JS.get entry "doc" = JS.get item "doc" ∧
      JS.get entry "chunk_id" = JS.get item "chunk_id" ∧
      ∀ k, k ∉ ["id"; "doc"; "chunk_id"; "chunk"] → JS.get entry k = JS.get item k.
Proof.
  intros Hbuild i entry Hentry.
  apply build_spec in Hbuild as (_ & _ & _ & _ & _ & _ & Hmeta & Hfile & _).
  rewrite Hfile, Hmeta, list_lookup_fmap, list_lookup_imap in Hentry.
  destruct (List.filter FaissIndexer.nonblank items !! i) as [item|]; [|done].
  injection Hentry as <-. exists item. split; [done|].
  rewrite !stringify_entry_get, make_entry_doc, make_entry_chunk_id.
  repeat split. intros k Hk. by rewrite stringify_entry_get, make_entry_extra.
Qed.

Lemma X12_entry_keeps_item_fields_witness :
  ∃ out,
    FaissIndexer.build Z Fixtures.embed Fixtures.normalize
      Fixtures.indexer Fixtures.healthy
      (Some [ <["page" := JS.JNum 7]> (IndexBuilder.make_item "a.txt" 0 "text") ])
    = Ok out ∧
    ∀ i entry,
      FaissIndexer.b_metadata_file Z out !! i = Some entry →
      ∃ item,
        List.filter FaissIndexer.nonblank
          [ <["page" := JS.JNum 7]> (IndexBuilder.make_item "a.txt" 0 "text") ] !! i
        = Some item ∧
        JS.get entry "doc" = JS.get item "doc" ∧
        JS.get entry "chunk_id" = JS.get item "chunk_id" ∧
        ∀ k, k ∉ ["id"; "doc"; "chunk_id"; "chunk"] → JS.get entry k = JS.get item k.
Proof.
  eexists. split; [vm_compute; reflexivity|].
  refine (X12_entry_keeps_item_fields Z Fixtures.embed Fixtures.normalize
            Fixtures.indexer Fixtures.healthy
            [ <["page" := JS.JNum 7]> (IndexBuilder.make_item "a.txt" 0 "text") ] _ _).
  vm_compute. reflexivity.
Defined.



(** X14. Whatever the engine answers, a [search] that returns keeps the
    engine's labels in their order and leaves out exactly the sentinels −1:
    no result has [id] −1 and there are never more results than labels. *)
Theorem X14_search_drops_sentinels (F : Type) (embed : string → option (list F))
    (normalize : list F → list F)
    (engine_search : list (list F) → list F → Z → FaissIndexer.EngineResult F)
    (self : FaissIndexer.Indexer F) (query : string) (k : Z)
    (hits : list (FaissIndexer.Hit F)) :
  FaissIndexer.search F embed normalize engine_search self query k = Ok hits →
  ∃ vectors raw,
    FaissIndexer.index F self = Some vectors ∧ vectors ≠ [] ∧
    embed query = Some raw ∧
    let result := engine_search vectors (normalize raw)
                    (Z.min k (Z.of_nat (length vectors))) in
    map (FaissIndexer.h_id F) hits
    = List.filter (λ idx, negb (idx =? -1)) (FaissIndexer.labels F result) ∧
    Forall (λ h, FaissIndexer.h_id F h ≠ -1) hits ∧
    (length hits ≤ length (FaissIndexer.labels F result))%nat.
Proof.
  unfold FaissIndexer.search.
  destruct (FaissIndexer.index F self) as [[|v vectors]|]; [done| |done].
  destruct (embed query) as [raw|]; [|done].
  intros [= <-]. exists (v :: vectors), raw.
  split; [done|]. split; [done|]. split; [done|].
  set (result := engine_search _ _ _).
  assert (Hids := collect_hits_ids F (FaissIndexer.metadata F self) result 0
                    (FaissIndexer.labels F result)).
  split; [done|]. split.
  - apply Forall_forall. intros h Hh.
    assert (Hin : FaissIndexer.h_id F h ∈
                  map (FaissIndexer.h_id F)
                    (FaissIndexer.collect_hits F (FaissIndexer.metadata F self)
                       result 0 (FaissIndexer.labels F result))).
    { apply list_elem_of_fmap. eauto. }
    rewrite Hids in Hin. apply list_elem_of_In, filter_In in Hin as [_ Hne].
    apply negb_true_iff, Z.eqb_neq in Hne. done.
  - rewrite <- (length_map (FaissIndexer.h_id F)), Hids. apply filter_length_le.
Qed.

Lemma X14_search_drops_sentinels_witness :
  ∃ hits,
    FaissIndexer.search Z Fixtures.embed Fixtures.normalize
      (λ _ _ _, {| FaissIndexer.labels := [1; -1; 0];
                   FaissIndexer.distances := [3; 2; 1] |})
      Fixtures.loaded "test" 3 = Ok hits ∧
    Forall (λ h, FaissIndexer.h_id Z h ≠ -1) hits.
Proof.
  eexists. split; [vm_compute; reflexivity|].
  destruct (X14_search_drops_sentinels Z Fixtures.embed Fixtures.normalize
              (λ _ _ _, {| FaissIndexer.labels := [1; -1; 0];
                           FaissIndexer.distances := [3; 2; 1] |})
              Fixtures.loaded "test" 3 _ eq_refl)
    as (vectors & raw & _ & _ & _ & _ & Hids & _).
  exact Hids.
Defined.

(* ===================================================================== *)
(** * Further properties of the change cache                              *)
(* ===================================================================== *)

Section CacheMore.
Import FS DocCache.

Variable md5 : string → string.

Let key (f : FileRef) : string := Path.basename (fr_path f).




End CacheMore.

(** X15. [detectChanges] leaves nothing out and invents nothing: a name is
    in one of the four arrays exactly when it is the basename of a scanned
    file or a key of the previous cache. *)
Theorem X15_detect_covers_everything (md5 : string → string)
    (dir : list FS.Entry) (existingCache : gmap string string)
    (opts : DocCache.Options) (k : string) :
  let changes := DocCache.detectChanges md5 dir existingCache opts in
  k ∈ DocCache.added changes ∨ k ∈ DocCache.modified changes ∨
  k ∈ DocCache.unchanged changes ∨ k ∈ DocCache.removed changes
  ↔ k ∈ map (λ f, Path.basename (FS.fr_path f)) (DocCache.getFiles dir opts) ∨
    k ∈ dom existingCache.
Proof. apply detect_union. Qed.

(** X16. When no two scanned files share a basename, the four arrays of
    [detectChanges] are pairwise disjoint and none lists a name twice among
    added, modified and unchanged. *)
Theorem X16_detect_disjoint (md5 : string → string)
    (dir : list FS.Entry) (existingCache : gmap string string)
    (opts : DocCache.Options) :
  NoDup (map (λ f, Path.basename (FS.fr_path f)) (DocCache.getFiles dir opts)) →
  let changes := DocCache.detectChanges md5 dir existingCache opts in
  (∀ k, k ∈ DocCache.added changes →
        (k ∉ DocCache.modified changes) ∧ (k ∉ DocCache.unchanged changes) ∧
        (k ∉ DocCache.removed changes)) ∧
  (∀ k, k ∈ DocCache.modified changes →
        (k ∉ DocCache.unchanged changes) ∧ (k ∉ DocCache.removed changes)) ∧
  (∀ k, k ∈ DocCache.unchanged changes → k ∉ DocCache.removed changes) ∧
  NoDup (DocCache.added changes ++ DocCache.modified changes
         ++ DocCache.unchanged changes)%list.
Proof.
  intros Hnodup changes.
  assert (Hdis := λ k, detect_disjoint md5 existingCache dir opts k Hnodup).
  split; [intros k; apply Hdis|]. split; [intros k; apply Hdis|].
  split; [intros k; apply Hdis|].
  assert (Hsub : ∀ (p : FS.FileRef → bool),
            NoDup (map (λ f, Path.basename (FS.fr_path f))
                     (List.filter p (DocCache.getFiles dir opts)))).
  { intros p. revert Hnodup. generalize (DocCache.getFiles dir opts).
    induction l as [|f l IH]; simpl; [done|].
    intros [Hf Hl]%NoDup_cons. destruct (p f); simpl; [|by apply IH].
    apply NoDup_cons. split; [|by apply IH].
    intros (g & Hkey & Hg)%list_elem_of_fmap. apply Hf, list_elem_of_fmap.
    exists g. split; [done|].
    apply list_elem_of_In, filter_In in Hg as [Hg _]. by apply list_elem_of_In. }
  unfold changes, DocCache.detectChanges. rewrite detect_fold. simpl.
  apply NoDup_app. split; [apply Hsub|]. split.
  - intros k Hk Hin. fold changes in Hdis.
    assert (Ha : k ∈ DocCache.added changes).
    { unfold changes, DocCache.detectChanges. rewrite detect_fold. done. }
    destruct (Hdis k) as [Hd _]. destruct (Hd Ha) as (Hm & Hu & _).
    apply elem_of_app in Hin as [Hin|Hin]; [apply Hm|apply Hu];
      unfold changes, DocCache.detectChanges; rewrite detect_fold; done.
  - apply NoDup_app. split; [apply Hsub|]. split; [|apply Hsub].
    intros k Hk Hin. fold changes in Hdis.
    destruct (Hdis k) as (_ & Hd & _).
    assert (Hm : k ∈ DocCache.modified changes).
    { unfold changes, DocCache.detectChanges. rewrite detect_fold. done. }
    destruct (Hd Hm) as [Hu _]. apply Hu.
    unfold changes, DocCache.detectChanges. rewrite detect_fold. done.
Qed.

Lemma X16_detect_disjoint_witness :
  NoDup (map (λ f, Path.basename (FS.fr_path f))
           (DocCache.getFiles Fixtures.twin_names
              {| DocCache.extensions := None; DocCache.recursive := false |})) ∧
  NoDup
    (DocCache.added
       (DocCache.detectChanges Fixtures.md5 Fixtures.twin_names
          {[ "a.txt" := "digest-of-alpha" ]}
          {| DocCache.extensions := None; DocCache.recursive := false |})
     ++ DocCache.modified
       (DocCache.detectChanges Fixtures.md5 Fixtures.twin_names
          {[ "a.txt" := "digest-of-alpha" ]}
          {| DocCache.extensions := None; DocCache.recursive := false |})
     ++ DocCache.unchanged
       (DocCache.detectChanges Fixtures.md5 Fixtures.twin_names
          {[ "a.txt" := "digest-of-alpha" ]}
          {| DocCache.extensions := None; DocCache.recursive := false |}))%list.
Proof.
  assert (Hnodup : NoDup (map (λ f, Path.basename (FS.fr_path f))
           (DocCache.getFiles Fixtures.twin_names
              {| DocCache.extensions := None; DocCache.recursive := false |}))).
  { vm_compute. repeat constructor; set_solver. }
  split; [exact Hnodup|].
  exact (proj2 (proj2 (proj2 (X16_detect_disjoint Fixtures.md5 Fixtures.twin_names
            {[ "a.txt" := "digest-of-alpha" ]}
            {| DocCache.extensions := None; DocCache.recursive := false |}
            Hnodup)))).
Defined.






(* ===================================================================== *)
(** * The two enumerations, characterized                                 *)
(* ===================================================================== *)

Section EnumerationMore.
Import FS Reference.

Lemma file_at_nonempty entries p content : file_at entries p content → p ≠ [].
Proof. by destruct 1. Qed.

Lemma file_at_mono entries entries' p content :
  file_at entries p content → (∀ e, e ∈ entries → e ∈ entries') →
  file_at entries' p content.
Proof.
  intros Hat Hsub. destruct Hat as [entries name content Hin
                                   |entries name children p content Hin Hat].
  - apply file_here. by apply Hsub.
  - eapply file_below; [by apply Hsub|done].
Qed.

Lemma basename_cons name p : p ≠ [] → Path.basename (name :: p) = Path.basename p.
Proof. unfold Path.basename. by destruct p. Qed.

(** What the scan of [docCache.js] returns from one entry is a regular file
    under that entry, on a visible path within reach, with a wanted
    extension. *)
Lemma doc_scan_entry_sound opts entry :
  ∀ currentPath f,
    f ∈ DocCache.scan_entry opts currentPath entry →
    ∃ suffix,
      fr_path f = (currentPath ++ suffix)%list ∧
      file_at [entry] suffix (fr_content f) ∧ visible suffix ∧
      in_reach (DocCache.recursive opts) suffix ∧
      cache_wants (DocCache.extensions opts) (Path.basename suffix) = true.
Proof.
  induction entry as [name content|name children IH|name] using Entry_nested_ind;
    intros currentPath f; simpl.
  - destruct (JS.startsWith name ".") eqn:Hname; [by intros ?%elem_of_nil|].
    fold (cache_wants (DocCache.extensions opts) name).
    destruct (cache_wants (DocCache.extensions opts) name) eqn:Hwant;
      [|by intros ?%elem_of_nil].
    intros ->%list_elem_of_singleton. exists [name]. simpl.
    split; [done|]. split; [apply file_here, list_elem_of_singleton; done|].
    split; [by constructor|]. split; [by right|done].
  - destruct (JS.startsWith name ".") eqn:Hname; [by intros ?%elem_of_nil|].
    destruct (DocCache.recursive opts) eqn:Hrec; [|by intros ?%elem_of_nil].
    rewrite list_elem_of_In, in_flat_map.
    intros (child & Hchild%list_elem_of_In & Hf%list_elem_of_In).
    rewrite List.Forall_forall in IH.
    destruct (IH child (proj1 (list_elem_of_In _ _) Hchild) _ _ Hf)
      as (suffix & Hpath & Hat & Hvis & _ & Hwant).
    exists (name :: suffix). rewrite Hpath, <- app_assoc. simpl.
    split; [done|]. split.
    { eapply file_below; [apply list_elem_of_singleton; done|].
      eapply file_at_mono; [exact Hat|]. by intros e ->%list_elem_of_singleton. }
    split; [by constructor|]. split; [by left|].
    by rewrite basename_cons by (by eapply file_at_nonempty).
  - destruct (JS.startsWith name "."); by intros ?%elem_of_nil.
Qed.

Lemma doc_scan_complete opts entries p content :
  file_at entries p content → visible p →
  in_reach (DocCache.recursive opts) p →
  cache_wants (DocCache.extensions opts) (Path.basename p) = true →
  ∀ currentPath,
    {| fr_path := (currentPath ++ p)%list; fr_content := content |}
    ∈ DocCache.scan opts currentPath entries.
Proof.
  unfold DocCache.scan.
  induction 1 as [entries name content Hin|entries name children p content Hin Hat IH];
    intros Hvis Hreach Hwant currentPath; rewrite list_elem_of_In, in_flat_map.
  - exists (EFile name content). split; [by apply list_elem_of_In|].
    apply Forall_cons in Hvis as [Hname _]. unfold hidden in Hname.
    simpl. rewrite Hname. fold (cache_wants (DocCache.extensions opts) name).
    unfold Path.basename in Hwant. simpl in Hwant. rewrite Hwant. simpl. auto.
  - exists (EDir name children). split; [by apply list_elem_of_In|].
    apply Forall_cons in Hvis as [Hname Hvis]. unfold hidden in Hname.
    assert (Hp := file_at_nonempty _ _ _ Hat).
    assert (Hrec : DocCache.recursive opts = true).
    { destruct Hreach as [|Hlen]; [done|]. simpl in Hlen. by destruct p. }
    simpl. rewrite Hname, Hrec. apply list_elem_of_In.
    replace (currentPath ++ name :: p)%list with ((currentPath ++ [name]) ++ p)%list
      by (by rewrite <- app_assoc).
    apply IH; [done|by left|by rewrite basename_cons in Hwant].
Qed.

Lemma doc_getFiles_iff dir opts f :
  f ∈ DocCache.getFiles dir opts ↔
  file_at dir (fr_path f) (fr_content f) ∧ visible (fr_path f) ∧
  in_reach (DocCache.recursive opts) (fr_path f) ∧
  cache_wants (DocCache.extensions opts) (Path.basename (fr_path f)) = true.
Proof.
  split.
  - unfold DocCache.getFiles, DocCache.scan. rewrite list_elem_of_In, in_flat_map.
    intros (entry & Hentry%list_elem_of_In & Hf%list_elem_of_In).
    apply doc_scan_entry_sound in Hf as (suffix & Hpath & Hat & Hvis & Hreach & Hwant).
    simpl in Hpath. rewrite Hpath. repeat split; try done.
    eapply file_at_mono; [exact Hat|]. by intros e ->%list_elem_of_singleton.
  - intros (Hat & Hvis & Hreach & Hwant). destruct f as [p content].
    apply (doc_scan_complete opts dir p content Hat Hvis Hreach Hwant []).
Qed.

(** The same for the enumeration of [index.js] and [cli.js]. *)
Lemma builder_entry_sound exts recursive entry :
  ∀ dir f,
    f ∈ IndexBuilder.getFiles_entry exts recursive dir entry →
    ∃ suffix,
      fr_path f = (dir ++ suffix)%list ∧
      file_at [entry] suffix (fr_content f) ∧
      in_reach recursive suffix ∧
      builder_wants exts (Path.basename suffix) = true.
Proof.
  induction entry as [name content|name children IH|name] using Entry_nested_ind;
    intros dir f; simpl.
  - fold (builder_wants exts name).
    destruct (builder_wants exts name) eqn:Hwant; [|by intros ?%elem_of_nil].
    intros ->%list_elem_of_singleton. exists [name]. simpl.
    split; [done|]. split; [apply file_here, list_elem_of_singleton; done|].
    split; [by right|done].
  - destruct recursive eqn:Hrec; [|by intros ?%elem_of_nil].
    rewrite list_elem_of_In, in_flat_map.
    intros (child & Hchild%list_elem_of_In & Hf%list_elem_of_In).
    rewrite List.Forall_forall in IH.
    destruct (IH child (proj1 (list_elem_of_In _ _) Hchild) _ _ Hf)
      as (suffix & Hpath & Hat & _ & Hwant).
    exists (name :: suffix). rewrite Hpath, <- app_assoc. simpl.
    split; [done|]. split.
    { eapply file_below; [apply list_elem_of_singleton; done|].
      eapply file_at_mono; [exact Hat|]. by intros e ->%list_elem_of_singleton. }
    split; [by left|].
    by rewrite basename_cons by (by eapply file_at_nonempty).
  - by intros ?%elem_of_nil.
Qed.

Lemma builder_getFiles_iff dir exts recursive f :
  f ∈ IndexBuilder.getFiles dir exts recursive ↔
  file_at dir (fr_path f) (fr_content f) ∧
  in_reach recursive (fr_path f) ∧
  builder_wants exts (Path.basename (fr_path f)) = true.
Proof.
  split.
  - unfold IndexBuilder.getFiles. rewrite list_elem_of_In, in_flat_map.
    intros (entry & Hentry%list_elem_of_In & Hf%list_elem_of_In).
    apply builder_entry_sound in Hf as (suffix & Hpath & Hat & Hreach & Hwant).
    simpl in Hpath. rewrite Hpath. repeat split; try done.
    eapply file_at_mono; [exact Hat|]. by intros e ->%list_elem_of_singleton.
  - intros (Hat & Hreach & Hwant). destruct f as [p content].
    by apply builder_getFiles_complete.
Qed.
End EnumerationMore.

(** X20. The enumeration of [docCache.js] returns exactly the regular files
    of the directory that lie on a path without a hidden segment, within
    reach of the scan (anywhere when recursive, at the top otherwise), and
    whose lower-cased extension is in the list when a non-empty list is
    given. *)
Theorem X20_cache_enumeration (dir : list FS.Entry) (opts : DocCache.Options)
    (f : FS.FileRef) :
  f ∈ DocCache.getFiles dir opts ↔
  FS.file_at dir (FS.fr_path f) (FS.fr_content f) ∧
  Reference.visible (FS.fr_path f) ∧
  Reference.in_reach (DocCache.recursive opts) (FS.fr_path f) ∧
  Reference.cache_wants (DocCache.extensions opts)
    (Path.basename (FS.fr_path f)) = true.
Proof. apply doc_getFiles_iff. Qed.

(** X21. The enumeration of [index.js] and [cli.js] returns exactly the
    regular files of the directory that are within reach of the scan and
    whose lower-cased extension is in the list; an empty list selects
    nothing. *)
Theorem X21_builder_enumeration (dir : list FS.Entry) (exts : list string)
    (recursive : bool) (f : FS.FileRef) :
  (f ∈ IndexBuilder.getFiles dir exts recursive ↔
   FS.file_at dir (FS.fr_path f) (FS.fr_content f) ∧
   Reference.in_reach recursive (FS.fr_path f) ∧
   Reference.builder_wants exts (Path.basename (FS.fr_path f)) = true) ∧
  IndexBuilder.getFiles dir [] recursive = [].
Proof.
  split; [apply builder_getFiles_iff|].
  apply elem_of_nil_inv. intros g [_ [_ Hwant]]%builder_getFiles_iff.
  unfold Reference.builder_wants, JS.arr_includes in Hwant.
  apply bool_decide_eq_true_1 in Hwant. by apply elem_of_nil in Hwant.
Qed.

(** X22. Given the same non-empty extension list, the files that the change
    cache covers are exactly the files that the index build reads, less
    those on a path with a hidden segment. *)
Theorem X22_cache_covers_visible_build_files (dir : list FS.Entry)
    (exts : list string) (recursive : bool) (f : FS.FileRef) :
  exts ≠ [] →
  f ∈ DocCache.getFiles dir
        {| DocCache.extensions := Some exts; DocCache.recursive := recursive |} ↔
  f ∈ IndexBuilder.getFiles dir exts recursive ∧ Reference.visible (FS.fr_path f).
Proof.
  intros Hexts. rewrite doc_getFiles_iff, builder_getFiles_iff.
  cbn [DocCache.extensions DocCache.recursive].
  assert (Hsame : ∀ name, Reference.cache_wants (Some exts) name
                          = Reference.builder_wants exts name)
    by (by destruct exts).
  rewrite Hsame. tauto.
Qed.

Lemma X22_cache_covers_visible_build_files_witness :
  {| FS.fr_path := ["a.txt"]; FS.fr_content := "alpha" |}
  ∈ IndexBuilder.getFiles Fixtures.with_hidden [".txt"; ".md"] false ∧
  Reference.visible ["a.txt"].
Proof.
  apply (X22_cache_covers_visible_build_files Fixtures.with_hidden [".txt"; ".md"]
           false {| FS.fr_path := ["a.txt"]; FS.fr_content := "alpha" |}).
  - discriminate.
  - apply list_elem_of_In. simpl. auto.
Defined.

(* ===================================================================== *)
(** * Properties of the chunk identifiers                                 *)
(* ===================================================================== *)

Section ChunkIdFacts.

(** A text without underscore. *)
Let plain (s : string) : Prop := ∀ a b, s ≠ a ++ "_" ++ b.

Lemma append_empty_l s : "" ++ s = s.
Proof. reflexivity. Qed.

Lemma append_cons_l c a s : String c a ++ s = String c (a ++ s).
Proof. reflexivity. Qed.

Lemma plain_cons c s : c ≠ "_"%char → plain s → plain (String c s).
Proof.
  intros Hc Hs [|c' a] b; rewrite ?append_cons_l, ?append_empty_l;
    intros [= -> Heq]; [done|]. by apply (Hs a b).
Qed.

Lemma plain_empty : plain "".
Proof. by intros [|c a] b. Qed.

Lemma pretty_N_char_plain x : pretty_N_char x ≠ "_"%char.
Proof. unfold pretty_N_char. by repeat case_match. Qed.

Lemma pretty_N_go_plain x : ∀ s, plain s → plain (pretty_N_go x s).
Proof.
  induction (N.lt_wf_0 x) as [x _ IH]. intros s Hs.
  destruct (decide (0 < x)%N) as [Hx|Hx].
  - rewrite pretty_N_go_step by done.
    apply IH; [by apply N.div_lt|]. apply plain_cons; [apply pretty_N_char_plain|done].
  - assert (x = 0%N) as -> by lia. by rewrite pretty_N_go_0.
Qed.

Lemma pretty_nat_plain (n : nat) : plain (pretty n).
Proof.
  unfold pretty, pretty_nat, pretty, pretty_N.
  case_decide; [|apply pretty_N_go_plain, plain_empty].
  apply plain_cons; [done|apply plain_empty].
Qed.

(** A text that ends in an underscore and a plain tail splits in one way
    only. *)
Lemma split_at_last_underscore s1 : ∀ s2 d1 d2,
  plain d1 → plain d2 →
  s1 ++ "_" ++ d1 = s2 ++ "_" ++ d2 → s1 = s2 ∧ d1 = d2.
Proof.
  induction s1 as [|c s1 IH]; intros [|c' s2] d1 d2 Hd1 Hd2;
    rewrite ?append_cons_l, ?append_empty_l.
  - by intros [= ->].
  - intros [= <- Heq]. by destruct (Hd1 s2 d2).
  - intros [= -> Heq]. by destruct (Hd2 s1 d1).
  - intros [= -> Heq]. by destruct (IH s2 d1 d2 Hd1 Hd2 Heq) as [-> ->].
Qed.
End ChunkIdFacts.

(** X23. Two derived chunk identifiers are equal exactly when the two
    relative paths have the same base identifier (separators replaced,
    extension stripped) and the two sequence indexes are equal: within one
    file identifiers never repeat, and across files they repeat only for
    paths such as [a.txt] and [a.md], or [a/b.txt] and [a_b.txt]. *)
Theorem X23_chunk_id_collisions (rel rel' : string) (i j : nat) :
  IndexBuilder.chunkId rel i = IndexBuilder.chunkId rel' j ↔
  IndexBuilder.baseId rel = IndexBuilder.baseId rel' ∧ i = j.
Proof.
  unfold IndexBuilder.chunkId. split.
  - intros Heq.
    apply split_at_last_underscore in Heq as [Hbase Hidx];
      [|apply pretty_nat_plain..].
    split; [done|]. by apply (inj pretty).
  - by intros [-> ->].
Qed.

Example base_id_collisions :
  IndexBuilder.baseId "a.txt" = IndexBuilder.baseId "a.md" ∧
  IndexBuilder.baseId "a/b.txt" = IndexBuilder.baseId "a_b.txt".
Proof. split; reflexivity. Qed.

(* ===================================================================== *)
(** * Properties of the metadata assembly                                 *)
(* ===================================================================== *)

Section AssemblyFacts.
Import FS JS IndexBuilder Reference.

Variable langchain : Splitter.SplitterCall → string → Result (list string).

(** The items of all files, file after file. *)
Let assembled (files : list FileRef) (chunkss : list (list string))
    : list (gmap string JValue) :=
  concat (zip_with file_items files chunkss).

Lemma cli_metadata_shape o files :
  ∀ metadata chunkIds metadata',
    ids_tracked metadata chunkIds →
    cli_metadata langchain o files metadata chunkIds = Ok metadata' →
    ∃ chunkss,
      Forall2 (λ f chunks, cli_file_chunks langchain o f = Ok chunks) files chunkss ∧
      metadata' = (metadata ++ assembled files chunkss)%list.
Proof.
  induction files as [|f files IH]; intros metadata chunkIds metadata' Hinv; simpl.
  - intros [= <-]. exists []. split; [constructor|]. by rewrite app_nil_r.
  - assert (Hhead : ∀ chunks,
      match readFileContent f with
      | None | Some "" => Ok []
      | Some content =>
        Splitter.splitTextByFileType langchain content (Path.basename (fr_path f))
          (splitter_options o)
      end = Ok chunks → cli_file_chunks langchain o f = Ok chunks) by done.
    destruct (readFileContent f) as [[|a content]|] eqn:Hread.
    + intros Hrun. destruct (IH _ _ _ Hinv Hrun) as (chunkss & Hall & ->).
      exists ([] :: chunkss). split; [constructor; auto|].
      subst assembled. simpl. done.
    + destruct (Splitter.splitTextByFileType _ _ _ _) as [chunks|] eqn:Hsplit;
        simpl; [|done].
      destruct (cli_push_chunks _ _ _ _ _) as [pushed|] eqn:Hpush; simpl; [|done].
      apply cli_push_chunks_spec in Hpush as [Hinv' Hpushed]; [|done].
      intros Hrun. destruct (IH _ _ _ Hinv' Hrun) as (chunkss & Hall & ->).
      exists (chunks :: chunkss). split; [constructor; auto|].
      subst assembled. simpl. rewrite Hpushed, <- app_assoc. done.
    + intros Hrun. destruct (IH _ _ _ Hinv Hrun) as (chunkss & Hall & ->).
      exists ([] :: chunkss). split; [constructor; auto|].
      subst assembled. simpl. done.
Qed.


(** The chunking of a file does not look at the splitter named in the
    options. *)
Lemma split_ignores_type text name (o1 o2 : Splitter.Options) :
  Splitter.chunkSize o1 = Splitter.chunkSize o2 →
  Splitter.chunkOverlap o1 = Splitter.chunkOverlap o2 →
  Splitter.splitTextByFileType langchain text name o1
  = Splitter.splitTextByFileType langchain text name o2.
Proof.
  intros Hsize Hoverlap. unfold Splitter.splitTextByFileType.
  by rewrite Hsize, Hoverlap.
Qed.

Lemma cli_metadata_ignores_splitter s o files :
  ∀ metadata chunkIds,
    cli_metadata langchain (with_splitter s o) files metadata chunkIds
    = cli_metadata langchain o files metadata chunkIds.
Proof.
  induction files as [|f files IH]; intros metadata chunkIds; simpl; [done|].
  destruct (readFileContent f) as [[|a content]|]; [apply IH| |apply IH].
  rewrite (split_ignores_type _ _ (splitter_options (with_splitter s o))
             (splitter_options o)) by done.
  destruct (Splitter.splitTextByFileType _ _ _ _); simpl; [|done].
  destruct (cli_push_chunks _ _ _ _ _); simpl; [apply IH|done].
Qed.

Lemma lib_metadata_ignores_splitter s o files :
  ∀ metadata,
    lib_metadata langchain (with_splitter s o) files metadata
    = lib_metadata langchain o files metadata.
Proof.
  induction files as [|f files IH]; intros metadata; simpl; [done|].
  rewrite (split_ignores_type _ _ (splitter_options (with_splitter s o))
             (splitter_options o)) by done.
  destruct (Splitter.splitTextByFileType _ _ _ _); simpl; [apply IH|done].
Qed.
End AssemblyFacts.

Section AssemblyComplete.
Import FS JS IndexBuilder Reference.

Variable langchain : Splitter.SplitterCall → string → Result (list string).

(** Without a repeated identifier the inner loop of [runBuild] pushes every
    chunk. *)
Lemma cli_push_chunks_complete rel chunks :
  ∀ i metadata chunkIds,
    ids_tracked metadata chunkIds →
    NoDup (map item_chunk_id
             (metadata ++ imap (λ j c, make_item rel (i + j) c) chunks)%list) →
    ∃ chunkIds',
      cli_push_chunks rel i chunks metadata chunkIds
      = Ok ((metadata ++ imap (λ j c, make_item rel (i + j) c) chunks)%list,
            chunkIds').
Proof.
  induction chunks as [|c chunks IH]; intros i metadata chunkIds Hinv Hnodup; simpl.
  - exists chunkIds. by rewrite app_nil_r.
  - simpl in Hnodup. rewrite Nat.add_0_r in *.
    assert (Hfresh : chunkId rel i ∉ chunkIds).
    { intros Hin. apply Hinv in Hin.
      rewrite map_app in Hnodup. apply NoDup_app in Hnodup as (_ & Hsep & _).
      apply (Hsep _ Hin). simpl. rewrite make_item_chunk_id. left. }
    rewrite bool_decide_eq_false_2 by done.
    assert (Hstep : cli_push_chunks rel i [c] metadata chunkIds
                    = Ok ((metadata ++ [make_item rel i c])%list,
                          {[chunkId rel i]} ∪ chunkIds)).
    { simpl. by rewrite bool_decide_eq_false_2. }
    apply cli_push_chunks_spec in Hstep as [Hinv' _]; [|done]. simpl in Hinv'.
    assert (Hshift : imap ((λ j c0, make_item rel (i + j) c0) ∘ S) chunks
                     = imap (λ j c0, make_item rel (S i + j) c0) chunks).
    { apply imap_ext. intros j x _. simpl. f_equal. lia. }
    rewrite Hshift in *.
    destruct (IH (S i) (metadata ++ [make_item rel i c])%list
                ({[chunkId rel i]} ∪ chunkIds) Hinv') as [ids' Hrun].
    { by rewrite <- app_assoc. }
    exists ids'. rewrite Hrun. by rewrite <- app_assoc.
Qed.

(** The outer loop of [runBuild] completes exactly when every file is
    chunked and no identifier is repeated, and then holds the items of all
    files in order. *)
Lemma cli_metadata_iff o files :
  ∀ metadata chunkIds metadata',
    ids_tracked metadata chunkIds →
    cli_metadata langchain o files metadata chunkIds = Ok metadata' ↔
    (∃ chunkss,
      Forall2 (λ f chunks, cli_file_chunks langchain o f = Ok chunks) files chunkss ∧
      metadata' = (metadata ++ concat (zip_with file_items files chunkss))%list) ∧
    NoDup (map item_chunk_id metadata').
Proof.
  intros metadata chunkIds metadata' Hinv. split.
  { intros Hrun. split; [by eapply cli_metadata_shape|].
    by apply cli_metadata_spec in Hrun as [? _]. }
  intros [(chunkss & Hall & ->) Hnodup].
  revert metadata chunkIds Hinv Hnodup.
  induction Hall as [|f chunks files chunkss Hhead Hall IH];
    intros metadata chunkIds Hinv Hnodup; simpl.
  { by rewrite app_nil_r. }
  simpl in Hnodup. rewrite app_assoc in Hnodup.
  unfold cli_file_chunks in Hhead.
  destruct (readFileContent f) as [[|a content]|] eqn:Hread.
  - injection Hhead as <-. simpl in *. rewrite app_nil_r in Hnodup.
    by apply IH.
  - rewrite Hhead. simpl.
    destruct (cli_push_chunks_complete (Path.relative (fr_path f)) chunks 0
                metadata chunkIds Hinv) as [ids' Hpush].
    { rewrite map_app in Hnodup. by apply NoDup_app in Hnodup as (? & _). }
    rewrite Hpush. simpl.
    apply cli_push_chunks_spec in Hpush as [Hinv' _]; [|done]. simpl in Hinv'.
    rewrite (IH _ ids' Hinv' Hnodup). unfold file_items.
    by rewrite app_assoc.
  - injection Hhead as <-. simpl in *. rewrite app_nil_r in Hnodup.
    by apply IH.
Qed.
End AssemblyComplete.

(** X24. [runBuild] of the command line completes exactly when the change
    cache is written, every enumerated file is chunked without an error from
    the splitter, the chunks give at least one item and no two items share a
    chunk identifier, and the index build on these items completes.  The
    metadata is then the items of the enumerated files in enumeration order,
    a file that cannot be read or is empty giving none. *)
Theorem X24_runBuild_succeeds_iff (F : Type) (embed : string → option (list F))
    (normalize : list F → list F)
    (langchain : Splitter.SplitterCall → string → Result (list string))
    (md5 : string → string) (entries : list FS.Entry)
    (o : IndexBuilder.Options) (reply : Embedder.TagsReply)
    (out : IndexBuilder.CliOutcome F) :
  let files := IndexBuilder.getFiles entries (IndexBuilder.extensions o)
                 (IndexBuilder.recursive o) in
  IndexBuilder.runBuild F embed normalize langchain md5 (Some entries) o reply
    = Ok out ↔
  DocCache.generateDocCache md5 (Some entries)
    {| DocCache.extensions := Some (IndexBuilder.extensions o);
       DocCache.recursive := IndexBuilder.recursive o |}
    = Ok (IndexBuilder.rb_cache F out) ∧
  (∃ chunkss,
     Forall2 (λ f chunks, Reference.cli_file_chunks langchain o f = Ok chunks)
       files chunkss ∧
     IndexBuilder.rb_metadata F out
     = concat (zip_with Reference.file_items files chunkss)) ∧
  IndexBuilder.rb_metadata F out ≠ [] ∧
  NoDup (map IndexBuilder.item_chunk_id (IndexBuilder.rb_metadata F out)) ∧
  FaissIndexer.build F embed normalize
    (FaissIndexer.new_indexer F (IndexBuilder.model o))
    (Embedder.healthCheck (IndexBuilder.model o) reply)
    (Some (IndexBuilder.rb_metadata F out))
  = Ok (IndexBuilder.rb_build F out).
Proof.
  intros files.
  assert (Hmeta : ∀ metadata,
    IndexBuilder.cli_metadata langchain o files [] ∅ = Ok metadata ↔
    (∃ chunkss,
       Forall2 (λ f chunks, Reference.cli_file_chunks langchain o f = Ok chunks)
         files chunkss ∧
       metadata = concat (zip_with Reference.file_items files chunkss)) ∧
    NoDup (map IndexBuilder.item_chunk_id metadata)).
  { intros metadata.
    apply (cli_metadata_iff langchain o files [] ∅ metadata
             (ids_tracked_empty F embed md5)). }
  unfold IndexBuilder.runBuild. fold files.
  destruct (DocCache.generateDocCache _ _ _) as [cache|e] eqn:Hcache; simpl.
  - split.
    + destruct (IndexBuilder.cli_metadata _ _ _ _ _) as [[|item metadata]|]
        eqn:Hrun; simpl; [done| |done].
      destruct (FaissIndexer.build _ _ _ _ _ _) as [built|] eqn:Hbuild; simpl;
        [|done].
      intros [= <-]. simpl.
      destruct (proj1 (Hmeta _) eq_refl) as [Hshape Hnodup]. done.
    + intros ([= ->] & Hshape & Hne & Hnodup & Hbuild).
      rewrite (proj2 (Hmeta _) (conj Hshape Hnodup)).
      destruct out as [cache metadata built]. simpl in *.
      destruct metadata as [|item metadata]; [done|].
      by rewrite Hbuild.
  - split; [done|]. by intros [? _].
Qed.

(** X25. The [splitter] option ([--splitter] on the command line) has no
    effect: the splitter is chosen from the file name alone, so [runBuild] of
    the command line and [build] of the library give the same result
    whatever the option holds. *)
Theorem X25_splitter_option_ignored (F : Type) (embed : string → option (list F))
    (normalize : list F → list F)
    (langchain : Splitter.SplitterCall → string → Result (list string))
    (md5 : string → string) (s : string) (o : IndexBuilder.Options)
    (reply : Embedder.TagsReply) :
  (∀ inputDir,
     IndexBuilder.runBuild F embed normalize langchain md5 inputDir
       (Reference.with_splitter s o) reply
     = IndexBuilder.runBuild F embed normalize langchain md5 inputDir o reply) ∧
  (∀ entries,
     IndexBuilder.build F embed normalize langchain entries
       (Reference.with_splitter s o) reply
     = IndexBuilder.build F embed normalize langchain entries o reply).
Proof.
  split.
  - intros [entries|]; [|done]. unfold IndexBuilder.runBuild. simpl.
    by rewrite cli_metadata_ignores_splitter.
  - intros entries. unfold IndexBuilder.build. simpl.
    by rewrite lib_metadata_ignores_splitter.
Qed.



(* ===================================================================== *)
(** * Properties of the line wrapping of the command line                 *)
(* ===================================================================== *)

Section WrapFacts.
Import JS Cli Reference.

Lemma append_empty_r s : s ++ "" = s.
Proof.
  induction s as [|c s IH]; [done|]. by rewrite append_cons_l, IH.
Qed.

Lemma last_space_bound s : ∀ i from found b,
  last_space s i from found = Some b →
  found = Some b ∨ (i ≤ b ∧ b ≤ from ∧ b < i + String.length s)%nat.
Proof.
  induction s as [|c s IH]; intros i from found b; simpl; [by left|].
  destruct (Nat.leb_spec i from) as [Hle|Hgt]; [|by left].
  intros [Hfound|Hrange]%IH.
  - destruct (Ascii.eqb c " "); [|by left].
    injection Hfound as <-. right. lia.
  - right. lia.
Qed.

Lemma lastIndexOf_space_bound s from b :
  lastIndexOf_space s from = Some b → (b ≤ from ∧ b < String.length s)%nat.
Proof.
  unfold lastIndexOf_space. intros [?|?]%last_space_bound; [done|lia].
Qed.

Lemma length_trim_start s : (String.length (trim_start s) ≤ String.length s)%nat.
Proof.
  induction s as [|c s IH]; simpl; [done|]. destruct (is_ws c); simpl; lia.
Qed.

Lemma strip_ws_trim_start s : strip_ws (trim_start s) = strip_ws s.
Proof.
  induction s as [|c s IH]; simpl; [done|].
  destruct (is_ws c) eqn:Hc; [done|]. simpl. by rewrite Hc.
Qed.

Lemma strip_ws_app a b : strip_ws (a ++ b) = strip_ws a ++ strip_ws b.
Proof.
  induction a as [|c a IH]; [done|].
  rewrite append_cons_l. simpl. destruct (is_ws c); [done|].
  by rewrite append_cons_l, IH.
Qed.

Lemma substring_split s : ∀ b,
  (b ≤ String.length s)%nat → substring 0 b s ++ substring_from s b = s.
Proof.
  unfold substring_from.
  induction s as [|c s IH]; intros [|b] Hb; simpl in *; try lia.
  - done.
  - by rewrite append_empty_l, substring_full.
  - rewrite append_cons_l. f_equal. apply IH. lia.
Qed.

(** The loop of [wrapText] with a width of at least one: it ends, every
    line it adds is non-empty and at most [width] long, and only white space
    of [remaining] is left out. *)
Lemma wrap_loop_spec width :
  (1 ≤ width)%nat →
  ∀ fuel remaining lines,
    (String.length remaining < fuel)%nat →
    ∃ out,
      wrap_loop fuel width remaining lines = Some (lines ++ out)%list ∧
      Forall (λ l, (String.length l ≤ width)%nat ∧ l ≠ "") out ∧
      strip_ws (joined out) = strip_ws remaining.
Proof.
  intros Hw. induction fuel as [|fuel IH]; intros remaining lines Hfuel; [lia|].
  cbn [wrap_loop]. destruct (Nat.ltb_spec width (String.length remaining)) as [Hlong|Hshort].
  - set (bp := match lastIndexOf_space remaining width with
               | Some b => if (2 * b <? width)%nat then width else b
               | None => width
               end).
    assert (Hbp : (1 ≤ bp ∧ bp ≤ width)%nat).
    { subst bp. destruct (lastIndexOf_space remaining width) as [b|] eqn:Hb; [|lia].
      apply lastIndexOf_space_bound in Hb.
      destruct (Nat.ltb_spec (2 * b) width); lia. }
    destruct (IH (trim_start (substring_from remaining bp))
                (lines ++ [substring 0 bp remaining])%list)
      as (out & Hrun & Hall & Hstrip).
    { pose proof (length_trim_start (substring_from remaining bp)) as Htrim.
      unfold substring_from in Htrim at 2. rewrite length_substring in Htrim. lia. }
    exists (substring 0 bp remaining :: out).
    rewrite Hrun, <- app_assoc. split; [done|]. split.
    + constructor; [|done]. split.
      * rewrite length_substring. lia.
      * intros Heq. apply (f_equal String.length) in Heq.
        rewrite length_substring in Heq. simpl in Heq. lia.
    + unfold joined in *. simpl.
      rewrite strip_ws_app, Hstrip, strip_ws_trim_start, <- strip_ws_app.
      rewrite substring_split by lia. done.
  - destruct (String.eqb_spec remaining "") as [->|Hne].
    + exists []. by rewrite app_nil_r.
    + exists [remaining]. split; [done|]. split.
      * constructor; [|constructor]. split; [lia|done].
      * unfold joined. simpl. by rewrite append_empty_r.
Qed.
End WrapFacts.

(** X27. [wrapText] with a width of at least one (the command line passes
    64) ends after at most one loop test per character, every line it returns
    is at most [width] characters long, no line is empty unless the text is,
    and the lines one after the other are the text with some white space at
    the breaks left out. *)
Theorem X27_wrapText_lines (text : string) (width fuel : nat) :
  (1 ≤ width)%nat → (String.length text < fuel)%nat →
  ∃ lines,
    Cli.wrapText_fuel fuel text width = Some lines ∧
    Forall (λ l, (String.length l ≤ width)%nat) lines ∧
    (text ≠ "" → Forall (λ l, l ≠ "") lines) ∧
    Reference.strip_ws (Reference.joined lines) = Reference.strip_ws text.
Proof.
  intros Hw Hfuel. unfold Cli.wrapText_fuel.
  destruct (Nat.leb_spec (String.length text) width) as [Hshort|Hlong].
  - exists [text]. split; [done|]. split; [by repeat constructor|].
    split; [by repeat constructor|].
    unfold Reference.joined. simpl. by rewrite append_empty_r.
  - destruct (wrap_loop_spec width Hw fuel text [] Hfuel)
      as (out & Hrun & Hall & Hstrip).
    exists out. split; [done|]. split; [|split; [|done]].
    + eapply Forall_impl; [exact Hall|]. by intros l [? _].
    + intros _. eapply Forall_impl; [exact Hall|]. by intros l [_ ?].
Qed.

Lemma X27_wrapText_lines_witness :
  ∃ lines,
    Cli.wrapText_fuel 12 "ab cd ef gh" 5 = Some lines ∧
    Forall (λ l, (String.length l ≤ 5)%nat) lines ∧
    ("ab cd ef gh" ≠ "" → Forall (λ l, l ≠ "") lines) ∧
    Reference.strip_ws (Reference.joined lines) = Reference.strip_ws "ab cd ef gh".
Proof.
  apply (X27_wrapText_lines "ab cd ef gh" 5 12); simpl; lia.
Defined.

(** X28. [wrapText] with a width of zero never returns on a text that starts
    with a character other than white space: the break point stays at zero
    and the remaining text is never shortened. *)
Theorem X28_wrapText_width_zero (c : ascii) (rest : string) (fuel : nat) :
  JS.is_ws c = false →
  Cli.wrapText_fuel fuel (String c rest) 0 = None.
Proof.
  intros Hc. unfold Cli.wrapText_fuel. simpl.
  generalize (@nil string).
  induction fuel as [|fuel IH]; intros lines; [done|].
  simpl. unfold Cli.lastIndexOf_space. simpl.
  assert (Hsp : Ascii.eqb c " " = false).
  { destruct (Ascii.eqb_spec c " ") as [->|]; [done|done]. }
  rewrite Hsp.
  assert (Hlast : Cli.last_space rest 1 0 None = None) by by destruct rest.
  rewrite Hlast. unfold Cli.substring_from. simpl.
  rewrite substring_full, Hc. apply IH.
Qed.

Lemma X28_wrapText_width_zero_witness :
  JS.is_ws "a" = false ∧ Cli.wrapText_fuel 100 "abc" 0 = None.
Proof.
  split; [reflexivity|]. apply (X28_wrapText_width_zero "a" "bc" 100). reflexivity.
Defined.

(* ===================================================================== *)
(** * Properties of the statistics and of the choice of splitter          *)
(* ===================================================================== *)

(** X29. [getStats] reports no vector on a fresh indexer.  After a completed
    [build] it reports as many vectors as the input has items with a text
    that is not blank, which is the count the build returned, and the
    dimension it reports is the length of every vector written to the index
    file. *)
Theorem X29_getStats_after_build (F : Type) (embed : string → option (list F))
    (normalize : list F → list F) (settings : IndexerApi.Settings)
    (model : string) (health : Embedder.Health)
    (items : list (gmap string JS.JValue)) (out : FaissIndexer.BuildOutcome F) :
  IndexerApi.st_vectors
    (IndexerApi.getStats F settings (FaissIndexer.new_indexer F model)) = 0%nat ∧
  (FaissIndexer.build F embed normalize (FaissIndexer.new_indexer F model) health
     (Some items) = Ok out →
   let stats := IndexerApi.getStats F settings (FaissIndexer.b_indexer F out) in
   IndexerApi.st_vectors stats = length (List.filter FaissIndexer.nonblank items) ∧
   IndexerApi.st_vectors stats = FaissIndexer.b_vectors F out ∧
   IndexerApi.st_dimension stats = FaissIndexer.dimension_of model ∧
   Forall (λ v, length v = IndexerApi.st_dimension stats)
     (FaissIndexer.b_index_file F out)).
Proof.
  split; [done|]. intros Hbuild.
  assert (Hdim : FaissIndexer.dimension F (FaissIndexer.b_indexer F out)
                 = FaissIndexer.dimension_of model).
  { unfold FaissIndexer.build in Hbuild.
    destruct (negb _); [done|]. destruct items as [|item items]; [done|].
    destruct (FaissIndexer.build_loop _ _ _ _ _ _ _ _) as [st|]; simpl in Hbuild;
      [|done].
    by injection Hbuild as <-. }
  apply build_spec in Hbuild as (_ & _ & _ & Hidx & Hn & Hvs & _).
  unfold IndexerApi.getStats. simpl. rewrite Hidx, Hdim.
  split; [by apply Forall2_length in Hvs|]. split; [done|]. split; [done|].
  clear Hidx Hn. induction Hvs as [|item v its vs (raw & _ & _ & Hlen) _ IH];
    constructor; done.
Qed.

Lemma X29_getStats_after_build_witness :
  ∃ out,
    FaissIndexer.build Z Fixtures.embed Fixtures.normalize
      (FaissIndexer.new_indexer Z "nomic-embed-text") Fixtures.healthy
      (Some [IndexBuilder.make_item "a.txt" 0 "Valid text";
             IndexBuilder.make_item "b.txt" 0 "   "]) = Ok out ∧
    IndexerApi.st_vectors
      (IndexerApi.getStats Z (IndexerApi.settings_of None None None)
         (FaissIndexer.b_indexer Z out)) = 1%nat.
Proof.
  eexists. split; [vm_compute; reflexivity|].
  refine (proj1 (proj2 (X29_getStats_after_build Z Fixtures.embed
            Fixtures.normalize (IndexerApi.settings_of None None None)
            "nomic-embed-text" Fixtures.healthy
            [IndexBuilder.make_item "a.txt" 0 "Valid text";
             IndexBuilder.make_item "b.txt" 0 "   "] _) _)).
  vm_compute. reflexivity.
Defined.


